(** * fibsem-tools: spatial transforms and COSEM multiscale metadata

    A shallow embedding of [fibsem_tools/metadata/transform.py] and
    [fibsem_tools/metadata/cosem.py], followed by the properties of the
    specification that are about them.

    Conventions of the embedding.
    - In [Transform] a Python [float] is an exact rational ([Q]) and
      numeric fields are compared with [Qeq]: this is the model for what
      the code does with names, units, lengths, order and errors.
      [Float64] gives the same functions over IEEE binary64, the
      arithmetic [float] and numpy's float64 have, for the property that
      depends on rounding, the round trip through coordinates.
    - A raising call returns [Raise e]; a returning call returns [Ok v].
    - A one-dimensional [xarray.DataArray] used as a coordinate is a
      [Coordinate]; an n-dimensional labelled array is a [DataArray].
    - A Python [dict] is an association list in insertion order. *)

From Stdlib Require Import Ascii String List Bool Arith Lia.
From Stdlib Require Import ZArith QArith Qabs Lqa DecimalString DecimalNat.
From Corelib Require PrimInt63 PrimFloat.
Import ListNotations.

Local Open Scope string_scope.
Local Open Scope list_scope.
Local Open Scope nat_scope.

(** ** Exceptions and results *)

Inductive exn : Type :=
| ValueError
| AssertionError
| IndexError
| TypeError
| AttributeError
| ValidationError.

Inductive result (A : Type) : Type :=
| Ok (a : A)
| Raise (e : exn).

Arguments Ok {A} a.
Arguments Raise {A} e.

Definition bind {A B : Type} (r : result A) (k : A -> result B) : result B :=
  match r with
  | Ok a => k a
  | Raise e => Raise e
  end.

Notation "x <- r ;; k" := (bind r (fun x => k))
  (at level 61, r at next level, right associativity).

Definition is_ok {A : Type} (r : result A) : bool :=
  match r with Ok _ => true | Raise _ => false end.

(** [seq[idx]] on a Python sequence, for a non-negative index. *)
Definition getitem {A : Type} (l : list A) (idx : nat) : result A :=
  match nth_error l idx with
  | Some a => Ok a
  | None => Raise IndexError
  end.

(** [enumerate(l)], counting from [start]. *)
Fixpoint enumerate_from {A : Type} (start : nat) (l : list A) : list (nat * A) :=
  match l with
  | [] => []
  | a :: l' => (start, a) :: enumerate_from (S start) l'
  end.

Definition enumerate {A : Type} (l : list A) : list (nat * A) :=
  enumerate_from 0 l.

(** A list comprehension whose element expression may raise: elements are
    evaluated left to right and the first exception escapes. *)
Fixpoint comprehension {A B : Type} (f : A -> result B) (l : list A)
  : result (list B) :=
  match l with
  | [] => Ok []
  | a :: l' =>
      b <- f a ;;
      bs <- comprehension f l' ;;
      Ok (b :: bs)
  end.

(** ** transform.py *)

Module Transform.

(** The two literals of the [order] field. *)
Inductive Order : Type :=
| OrderC
| OrderF.

(** A one-dimensional labelled array: [dims[0]], [attrs.get("units")] and
    the samples. *)
Record Coordinate : Type := mkCoordinate {
  dim : string;
  attrs_units : option string;
  values : list Q
}.

(** An n-dimensional labelled array, as far as the metadata code reads
    it: [coords.values()] in order, [shape], [dtype] and the chunking of
    its data when the data is chunked. *)
Record DataArray : Type := mkDataArray {
  coords : list Coordinate;
  shape : list nat;
  dtype : string;
  data_chunks : option (list nat)
}.

(** [class STTransform(BaseModel)]. *)
Record STTransform : Type := mkSTTransform {
  order : option Order;
  axes : list string;
  units : list string;
  translate : list Q;
  scale : list Q
}.

(** [STTransform.validate_argument_length], the root validator. *)
Definition validate_argument_length (values : STTransform)
  : result STTransform :=
  if (length (axes values) =? length (units values))
     && (length (units values) =? length (translate values))
     && (length (translate values) =? length (scale values))
  then Ok values
  else Raise ValueError.

(** [STTransform(order=..., axes=..., units=..., translate=..., scale=...)]:
    the constructor runs the root validator and reports its [ValueError]
    as a validation error. *)
Definition STTransform_init (order : option Order) (axes units : list string)
  (translate scale : list Q) : result STTransform :=
  match validate_argument_length
          (mkSTTransform order axes units translate scale) with
  | Ok v => Ok v
  | Raise _ => Raise ValidationError
  end.

(** Modelled from the spec: [fibsem_tools.io.xr.stt_coord] is imported by
    transform.py but its module is not among the sources.  The
    specification gives a coordinate array of the requested length with
    values [translate + k * scale] for [k = 0 .. length - 1], labelled
    with the axis name and the unit. *)
Definition stt_coord (length : nat) (dim : string) (scale translate : Q)
  (unit : string) : Coordinate :=
  mkCoordinate dim (Some unit)
    (map (fun k => translate + inject_Z (Z.of_nat k) * scale)%Q (seq 0 length)).

(** [STTransform.to_coords]. *)
Definition to_coords (self : STTransform) (shape : list nat)
  : result (list Coordinate) :=
  let axes :=
    match order self with
    | Some OrderC => axes self
    | _ => rev (axes self)
    end in
  comprehension
    (fun '(idx, k) =>
       n <- getitem shape idx ;;
       s <- getitem (scale self) idx ;;
       t <- getitem (translate self) idx ;;
       u <- getitem (units self) idx ;;
       Ok (stt_coord n k s t u))
    (enumerate axes).

(** [x > 0] on floats. *)
Definition Qpositive (x : Q) : bool :=
  match (0 ?= x)%Q with
  | Lt => true
  | _ => false
  end.

(** The four accumulators of the loop of [from_coords]. *)
Record accumulators : Type := mkAcc {
  acc_axes : list string;
  acc_units : list string;
  acc_scale : list Q;
  acc_translate : list Q
}.

(** One iteration of the [for c in coords] loop of [from_coords]. *)
Definition from_coords_step (acc : accumulators) (c : Coordinate)
  : result accumulators :=
  if length (values c) <? 2 then Raise ValueError
  else
    let c0 := nth 0 (values c) 0%Q in
    let c1 := nth 1 (values c) 0%Q in
    let axes := acc_axes acc ++ [dim c] in
    let units :=
      acc_units acc ++
        [match attrs_units c with Some u => u | None => "m" end] in
    let translate := acc_translate acc ++ [c0] in
    let scale := acc_scale acc ++ [Qabs (c1 - c0)] in
    if Qpositive (last scale 0%Q)
    then Ok (mkAcc axes units scale translate)
    else Raise AssertionError.

Fixpoint from_coords_loop (coords : list Coordinate) (acc : accumulators)
  : result accumulators :=
  match coords with
  | [] => Ok acc
  | c :: rest =>
      acc' <- from_coords_step acc c ;;
      from_coords_loop rest acc'
  end.

(** [STTransform.from_coords]. *)
Definition from_coords (coords : list Coordinate) (order : Order)
  : result STTransform :=
  acc <- from_coords_loop coords (mkAcc [] [] [] []) ;;
  STTransform_init (Some order) (acc_axes acc) (acc_units acc)
    (acc_translate acc) (acc_scale acc).

(** [STTransform.from_xarray]: [slice(None)] keeps the coordinates in
    their order, [slice(-1, None, -1)] reverses them. *)
Definition from_xarray (array : DataArray) (reverse_axes : bool)
  : result STTransform :=
  let orderer := fun (l : list Coordinate) => l in
  let output_order := OrderC in
  let '(orderer, output_order) :=
    if reverse_axes
    then (fun l : list Coordinate => rev l, OrderF)
    else (orderer, output_order) in
  from_coords (orderer (coords array)) output_order.

(** *** Notions used to state the properties *)

(** [float(c[0])] and [float(c[1])]. *)
Definition first_value (c : Coordinate) : Q := nth 0 (values c) 0%Q.
Definition second_value (c : Coordinate) : Q := nth 1 (values c) 0%Q.

(** [c.attrs.get("units", "m")]. *)
Definition unit_of (c : Coordinate) : string :=
  match attrs_units c with
  | Some u => u
  | None => "m"
  end.

(** [abs(float(c[1]) - float(c[0]))]. *)
Definition spacing (c : Coordinate) : Q :=
  Qabs (second_value c - first_value c).

(** A coordinate the loop of [from_coords] gets past: two samples or
    more, and a strictly positive spacing. *)
Definition inferable (c : Coordinate) : Prop :=
  2 <= length (values c) /\ (0 < spacing c)%Q.

(** Two coordinates with the same dimension name, the same unit
    annotation and the same first two samples. *)
Definition agree (c c' : Coordinate) : Prop :=
  dim c = dim c' /\
  attrs_units c = attrs_units c' /\
  firstn 2 (values c) = firstn 2 (values c').


(** The four per-axis sequences have one length. *)
Definition equal_lengths (ax un : list string) (tr sc : list Q) : Prop :=
  length ax = length un /\ length un = length tr /\ length tr = length sc.

(** A valid transform: the length invariant, strictly positive scales and
    one of the two orders. *)
Definition valid (T : STTransform) : Prop :=
  equal_lengths (axes T) (units T) (translate T) (scale T) /\
  Forall (fun s => (0 < s)%Q) (scale T) /\
  (order T = Some OrderC \/ order T = Some OrderF).

(** The axes as [to_coords] walks them. *)
Definition traversed_axes (self : STTransform) : list string :=
  match order self with
  | Some OrderC => axes self
  | _ => rev (axes self)
  end.

(** The coordinate [to_coords] builds for the pair [(idx, k)]. *)
Definition coord_at (self : STTransform) (shape : list nat) (p : nat * string)
  : Coordinate :=
  stt_coord (nth (fst p) shape 0) (snd p)
    (nth (fst p) (scale self) 0%Q)
    (nth (fst p) (translate self) 0%Q)
    (nth (fst p) (units self) "").


End Transform.

(** ** transform.py over binary64 *)

Module Float64.

Import Transform.
Import PrimInt63 PrimFloat.













(** *** Notions used to state the round trip *)












End Float64.

(** ** cosem.py *)

Module Cosem.

Import Transform.

(** An argument that is either the literal ["auto"] or an explicit
    sequence ([Union[Sequence[...], Literal["auto"]]]). *)
Inductive policy (A : Type) : Type :=
| Auto
| Explicit (l : list A).

Arguments Auto {A}.
Arguments Explicit {A} l.

(** The Python values that reach a [chunks=] keyword or a key of a
    [members] dict: a string or a tuple of ints.  Python does not check
    the annotations, so both kinds can reach both places. *)
Inductive pyobj : Type :=
| PyStr (s : string)
| PyTuple (t : list nat).

Definition pyobj_eqb (a b : pyobj) : bool :=
  match a, b with
  | PyStr s, PyStr s' => String.eqb s s'
  | PyTuple t, PyTuple t' =>
      if list_eq_dec Nat.eq_dec t t' then true else false
  | _, _ => false
  end.

(** [**kwargs]. *)
Definition kwargs : Type := list (string * pyobj).

(** [d[key] = value] on a dict: an existing key keeps its position. *)
Fixpoint dict_set {V : Type} (d : list (pyobj * V)) (key : pyobj) (value : V)
  : list (pyobj * V) :=
  match d with
  | [] => [(key, value)]
  | (k, v) :: d' =>
      if pyobj_eqb k key then (k, value) :: d'
      else (k, v) :: dict_set d' key value
  end.

Definition dict_keys {K V : Type} (d : list (K * V)) : list K := map fst d.
Definition dict_values {K V : Type} (d : list (K * V)) : list V := map snd d.

(** [zip(a, b, c)]: stops at the shortest argument. *)
Fixpoint zip3 {A B C : Type} (a : list A) (b : list B) (c : list C)
  : list (A * B * C) :=
  match a, b, c with
  | x :: a', y :: b', z :: c' => (x, y, z) :: zip3 a' b' c'
  | _, _, _ => []
  end.

(** [{key: value for x in items}] where the value expression may raise:
    items are taken left to right and each pair is stored as it is made. *)
Fixpoint dict_comprehension {A V : Type} (f : A -> result (pyobj * V))
  (items : list A) (d : list (pyobj * V)) : result (list (pyobj * V)) :=
  match items with
  | [] => Ok d
  | x :: items' =>
      kv <- f x ;;
      dict_comprehension f items' (dict_set d (fst kv) (snd kv))
  end.

(** [f"s{idx}"]. *)
Definition s_idx (idx : nat) : string :=
  "s" ++ NilZero.string_of_uint (Nat.to_uint idx).

(** [normalize_paths]. *)
Definition normalize_paths {A : Type} (arrays : list A) (paths : policy string)
  : list string :=
  match paths with
  | Auto => map s_idx (seq 0 (length arrays))
  | Explicit paths => paths
  end.

(** Modelled from the spec: [fibsem_tools.io.util.normalize_chunks] is
    imported by cosem.py but its module is not among the sources.  The
    specification gives: an explicit list holds one chunk shape per array
    and a list whose length disagrees with the array count fails with a
    validation error; the automatic policy inherits the chunking of an
    array whose data is chunked and otherwise takes one chunk spanning the
    full shape. *)
Definition normalize_chunks (arrays : list DataArray)
  (chunks : policy (list nat)) : result (list (list nat)) :=
  match chunks with
  | Auto =>
      Ok (map (fun arr =>
                 match data_chunks arr with
                 | Some c => c
                 | None => shape arr
                 end) arrays)
  | Explicit chunks =>
      if length chunks =? length arrays then Ok chunks
      else Raise ValidationError
  end.

Record ScaleMetaV1 : Type := mkScaleMetaV1 {
  path : string;
  transform : STTransform
}.

Record MultiscaleMetaV1 : Type := mkMultiscaleMetaV1 {
  v1_name : option string;
  v1_datasets : list ScaleMetaV1
}.

Record MultiscaleMetaV2 : Type := mkMultiscaleMetaV2 {
  v2_name : option string;
  v2_datasets : list string
}.

Record CosemGroupMetadataV1 : Type := mkCosemGroupMetadataV1 {
  v1_multiscales : list MultiscaleMetaV1
}.

Record CosemGroupMetadataV2 : Type := mkCosemGroupMetadataV2 {
  v2_multiscales : list MultiscaleMetaV2
}.

(** [CosemGroupMetadataV1.from_xarrays]; the constructor ignores the
    extra [name=] keyword. *)
Definition CosemGroupMetadataV1_from_xarrays
  (arrays : list (string * DataArray)) (name : option string)
  : result CosemGroupMetadataV1 :=
  datasets <-
    comprehension
      (fun '(path, arr) =>
         t <- from_xarray arr false ;;
         Ok (mkScaleMetaV1 path t))
      arrays ;;
  let multiscales := [mkMultiscaleMetaV1 name datasets] in
  Ok (mkCosemGroupMetadataV1 multiscales).

(** [CosemGroupMetadataV2.from_xarrays]; the constructor ignores the
    extra [name=] and [paths=] keywords. *)
Definition CosemGroupMetadataV2_from_xarrays
  (arrays : list DataArray) (paths : policy string) (name : option string)
  : result CosemGroupMetadataV2 :=
  let _paths := normalize_paths arrays paths in
  let multiscales := [mkMultiscaleMetaV2 name _paths] in
  Ok (mkCosemGroupMetadataV2 multiscales).

Record CosemArrayAttrs : Type := mkCosemArrayAttrs {
  attrs_transform : STTransform
}.

(** [CosemMultiscaleArray(ArraySpec)], as built by [ArraySpec.from_array]
    of the pydantic_zarr library: the attributes, the shape and dtype of
    the array, and the keyword arguments the call was given, [chunks]
    among them.  The library validates [chunks] as a tuple of ints (see
    [CosemMultiscaleArray_from_xarray]); what it does with the other
    keyword values is outside the model, which keeps them as passed. *)
Record CosemMultiscaleArray : Type := mkCosemMultiscaleArray {
  attributes : CosemArrayAttrs;
  spec_shape : list nat;
  spec_dtype : string;
  spec_kwargs : kwargs
}.

(** The [chunks] a member was built with. *)
Definition spec_chunks (spec : CosemMultiscaleArray) : option pyobj :=
  option_map snd
    (find (fun kv => String.eqb (fst kv) "chunks") (spec_kwargs spec)).

(** A call [f(..., k=v, **kwargs)]: a keyword given twice is a
    [TypeError] raised before the body runs. *)
Definition keywords (explicit : string) (v : pyobj) (kw : kwargs)
  : result kwargs :=
  if existsb (fun kv => String.eqb (fst kv) explicit) kw
  then Raise TypeError
  else Ok ((explicit, v) :: kw).

(** The [chunks] field of an [ArraySpec] is declared a tuple of ints: the
    library's validation rejects a string given for it. *)
Definition validate_chunks (kw : kwargs) : result kwargs :=
  match find (fun kv => String.eqb (fst kv) "chunks") kw with
  | Some (_, PyStr _) => Raise ValidationError
  | _ => Ok kw
  end.

(** [CosemMultiscaleArray.from_xarray(array, **kwargs)]; [attributes] is
    passed by keyword next to [**kwargs], and the library validates the
    [chunks] it is given. *)
Definition CosemMultiscaleArray_from_xarray (array : DataArray) (kw : kwargs)
  : result CosemMultiscaleArray :=
  t <- from_xarray array false ;;
  let attrs := mkCosemArrayAttrs t in
  if existsb (fun kv => String.eqb (fst kv) "attributes") kw
  then Raise TypeError
  else
    kw <- validate_chunks kw ;;
    Ok (mkCosemMultiscaleArray attrs (shape array) (dtype array) kw).

(** [CosemMultiscaleGroupV1] and [CosemMultiscaleGroupV2]: the
    [attributes] and the [members], declared [dict[str, ...]]. *)
Record CosemMultiscaleGroupV1 : Type := mkCosemMultiscaleGroupV1 {
  g1_attributes : CosemGroupMetadataV1;
  g1_members : list (pyobj * CosemMultiscaleArray)
}.

Record CosemMultiscaleGroupV2 : Type := mkCosemMultiscaleGroupV2 {
  g2_attributes : CosemGroupMetadataV2;
  g2_members : list (pyobj * CosemMultiscaleArray)
}.

(** The constructor of a group validates [members: dict[str, ...]]: a
    key that is not a string is a validation error. *)
Definition validate_members {V : Type} (members : list (pyobj * V))
  : result (list (pyobj * V)) :=
  if forallb (fun kv => match fst kv with PyStr _ => true | _ => false end)
       members
  then Ok members
  else Raise ValidationError.

(** Modelled from the spec: [normalize_chunks] as
    [CosemMultiscaleGroupV1.from_xarrays] calls it, on the mapping itself.
    Iterating a mapping yields its keys, the names.  The automatic policy
    asks each item for the chunking of its data, which a name does not
    have ([AttributeError]); the explicit policy compares the length of
    the list with the number of items. *)
Definition normalize_chunks_of_names (names : list string)
  (chunks : policy (list nat)) : result (list (list nat)) :=
  match chunks with
  | Auto =>
      match names with
      | [] => Ok []
      | _ :: _ => Raise AttributeError
      end
  | Explicit chunks =>
      if length chunks =? length names then Ok chunks
      else Raise ValidationError
  end.

(** [CosemMultiscaleGroupV1.from_xarrays].  [normalize_chunks] is called
    on the mapping.  The loop variables are bound in the order the source
    writes them: [arr, cnks, key] over
    [zip(arrays.values(), arrays.keys(), _chunks)], so [cnks] is a name
    and [key] a chunk shape. *)
Definition CosemMultiscaleGroupV1_from_xarrays
  (arrays : list (string * DataArray)) (chunks : policy (list nat))
  (name : option string) (kw : kwargs) : result CosemMultiscaleGroupV1 :=
  _chunks <- normalize_chunks_of_names (dict_keys arrays) chunks ;;
  attrs <- CosemGroupMetadataV1_from_xarrays arrays name ;;
  array_specs <-
    dict_comprehension
      (fun '(arr, cnks, key) =>
         kw' <- keywords "chunks" (PyStr cnks) kw ;;
         spec <- CosemMultiscaleArray_from_xarray arr kw' ;;
         Ok (PyTuple key, spec))
      (zip3 (dict_values arrays) (dict_keys arrays) _chunks) [] ;;
  members <- validate_members array_specs ;;
  Ok (mkCosemMultiscaleGroupV1 attrs members).

(** [CosemMultiscaleGroupV2.from_xarrays]: [arr, cnks, key] over
    [zip(arrays, _chunks, _paths)]. *)
Definition CosemMultiscaleGroupV2_from_xarrays
  (arrays : list DataArray) (chunks : policy (list nat))
  (paths : policy string) (name : option string) (kw : kwargs)
  : result CosemMultiscaleGroupV2 :=
  let _paths := normalize_paths arrays paths in
  _chunks <- normalize_chunks arrays chunks ;;
  attrs <- CosemGroupMetadataV2_from_xarrays arrays (Explicit _paths) name ;;
  array_specs <-
    dict_comprehension
      (fun '(arr, cnks, key) =>
         kw' <- keywords "chunks" (PyTuple cnks) kw ;;
         spec <- CosemMultiscaleArray_from_xarray arr kw' ;;
         Ok (PyStr key, spec))
      (zip3 arrays _chunks _paths) [] ;;
  members <- validate_members array_specs ;;
  Ok (mkCosemMultiscaleGroupV2 attrs members).

(** [multiscale_group], with keyword-only [arrays], [chunks] and extra
    keyword arguments. *)
Definition multiscale_group (arrays : list (string * DataArray))
  (chunks : policy (list nat)) (kw : kwargs) : result CosemMultiscaleGroupV1 :=
  CosemMultiscaleGroupV1_from_xarrays arrays Auto None [].

(** *** Notions used to state the properties *)

(** The sentence of C5 as the specification has it: an explicit chunk
    list or an explicit path list of the wrong length makes the builder
    fail. *)
Definition policy_length_mismatch_fails : Prop :=
  (forall arrays chunks paths name kw,
     length chunks <> length arrays ->
     exists e,
       CosemMultiscaleGroupV2_from_xarrays arrays (Explicit chunks) paths
         name kw = Raise e) /\
  (forall arrays paths name,
     length paths <> length arrays ->
     exists e,
       CosemGroupMetadataV2_from_xarrays arrays (Explicit paths) name =
         Raise e) /\
  (forall arrays chunks paths name kw,
     length paths <> length arrays ->
     exists e,
       CosemMultiscaleGroupV2_from_xarrays arrays chunks (Explicit paths)
         name kw = Raise e).

(** The row-major transform [from_xarray] reads off an array whose
    coordinates it accepts. *)
Definition inferred_transform (a : DataArray) : STTransform :=
  mkSTTransform (Some OrderC) (map dim (coords a)) (map unit_of (coords a))
    (map first_value (coords a)) (map spacing (coords a)).

(** An array all of whose coordinates inference accepts. *)
Definition inferable_array (a : DataArray) : Prop :=
  Forall inferable (coords a).

(** The member [CosemMultiscaleArray.from_xarray] builds for an accepted
    array, the chunk shape [cnks] and the extra keywords [kw]. *)
Definition member_spec (kw : kwargs) (a : DataArray) (cnks : list nat)
  : CosemMultiscaleArray :=
  mkCosemMultiscaleArray (mkCosemArrayAttrs (inferred_transform a))
    (shape a) (dtype a) (("chunks", PyTuple cnks) :: kw).

(** [k in kwargs]. *)
Definition has_keyword (k : string) (kw : kwargs) : Prop :=
  In k (map fst kw).

End Cosem.


(** * Properties of transform.py *)

Import Transform.

(** ** Arithmetic of the samples *)

Lemma Qpositive_spec (x : Q) : Qpositive x = true <-> (0 < x)%Q.
Proof.
  unfold Qpositive. rewrite Qlt_alt.
  destruct (0 ?= x)%Q; split; congruence.
Qed.

Lemma Qabs_of_positive (x : Q) : (0 < x)%Q -> Qabs x = x.
Proof.
  destruct x as [n d]. unfold Qlt. simpl. intros H.
  f_equal. apply Z.abs_eq. lia.
Qed.

Lemma Qabs_diff_zero (a b : Q) : (a == b)%Q -> ~ (0 < Qabs (b - a))%Q.
Proof.
  intros E H.
  assert (Z : (b - a == 0)%Q) by (rewrite E; ring).
  rewrite Z in H. simpl in H. revert H. apply Qlt_irrefl.
Qed.

(** ** The loop of [from_coords] *)

Lemma from_coords_step_inferable (acc : accumulators) (c : Coordinate) :
  inferable c ->
  from_coords_step acc c =
    Ok (mkAcc (acc_axes acc ++ [dim c]) (acc_units acc ++ [unit_of c])
          (acc_scale acc ++ [spacing c])
          (acc_translate acc ++ [first_value c])).
Proof.
  intros [Hlen Hpos]. unfold from_coords_step.
  destruct (Nat.ltb_spec (length (values c)) 2) as [Hl | _]; [lia |].
  rewrite last_last.
  apply Qpositive_spec in Hpos. unfold spacing, second_value, first_value in Hpos.
  rewrite Hpos. reflexivity.
Qed.

Lemma from_coords_step_not_inferable (acc : accumulators) (c : Coordinate) :
  ~ inferable c -> exists e, from_coords_step acc c = Raise e.
Proof.
  intros Hn. unfold from_coords_step.
  destruct (Nat.ltb_spec (length (values c)) 2) as [Hl | Hl]; [now eexists |].
  rewrite last_last.
  destruct (Qpositive _) eqn:E; [| now eexists].
  exfalso. apply Hn. split; [exact Hl |].
  apply Qpositive_spec. exact E.
Qed.

Lemma from_coords_loop_inferable (cs : list Coordinate) :
  Forall inferable cs ->
  forall acc,
    from_coords_loop cs acc =
      Ok (mkAcc (acc_axes acc ++ map dim cs) (acc_units acc ++ map unit_of cs)
            (acc_scale acc ++ map spacing cs)
            (acc_translate acc ++ map first_value cs)).
Proof.
  induction 1 as [| c cs Hc _ IH]; intros acc; simpl.
  - rewrite !app_nil_r. now destruct acc.
  - rewrite (from_coords_step_inferable acc c Hc). simpl.
    rewrite IH. simpl. now rewrite <- !app_assoc.
Qed.

Lemma from_coords_loop_not_inferable (cs : list Coordinate) :
  Exists (fun c => ~ inferable c) cs ->
  forall acc, exists e, from_coords_loop cs acc = Raise e.
Proof.
  induction 1 as [c cs Hc | c cs _ IH]; intros acc; simpl.
  - destruct (from_coords_step_not_inferable acc c Hc) as [e ->].
    now exists e.
  - destruct (from_coords_step acc c) as [acc' | e]; simpl.
    + apply IH.
    + now exists e.
Qed.

Lemma STTransform_init_equal_lengths (o : option Order) (ax un : list string)
  (tr sc : list Q) :
  equal_lengths ax un tr sc ->
  STTransform_init o ax un tr sc = Ok (mkSTTransform o ax un tr sc).
Proof.
  intros (H1 & H2 & H3). unfold STTransform_init, validate_argument_length.
  simpl. rewrite H1, H2, H3, !Nat.eqb_refl. reflexivity.
Qed.

Lemma STTransform_init_unequal_lengths (o : option Order)
  (ax un : list string) (tr sc : list Q) :
  ~ equal_lengths ax un tr sc ->
  STTransform_init o ax un tr sc = Raise ValidationError.
Proof.
  intros Hn. unfold STTransform_init, validate_argument_length. simpl.
  destruct (Nat.eqb_spec (length ax) (length un)) as [H1 | H1];
    [| reflexivity].
  destruct (Nat.eqb_spec (length un) (length tr)) as [H2 | H2];
    [| reflexivity].
  destruct (Nat.eqb_spec (length tr) (length sc)) as [H3 | H3];
    [| reflexivity].
  exfalso. apply Hn. repeat split; assumption.
Qed.

(** What [from_coords] returns on coordinates it gets past. *)
Lemma from_coords_inferable (cs : list Coordinate) (o : Order) :
  Forall inferable cs ->
  from_coords cs o =
    Ok (mkSTTransform (Some o) (map dim cs) (map unit_of cs)
          (map first_value cs) (map spacing cs)).
Proof.
  intros H. unfold from_coords.
  rewrite (from_coords_loop_inferable cs H). simpl.
  apply STTransform_init_equal_lengths.
  unfold equal_lengths. now rewrite !length_map.
Qed.

Lemma from_coords_not_inferable (cs : list Coordinate) (o : Order) :
  Exists (fun c => ~ inferable c) cs ->
  exists e, from_coords cs o = Raise e.
Proof.
  intros H. unfold from_coords.
  destruct (from_coords_loop_not_inferable cs H (mkAcc [] [] [] []))
    as [e ->].
  now exists e.
Qed.


(** ** Construction *)

(** C7. Constructing a transform whose axes, units, translate and scale
    sequences are not all of one length fails with a validation error,
    whatever the four lengths are; construction succeeds exactly when the
    four lengths are equal, and then returns the transform with the fields
    it was given. *)
Theorem STTransform_init_length_invariant
  (o : option Order) (ax un : list string) (tr sc : list Q) :
  (~ equal_lengths ax un tr sc ->
   STTransform_init o ax un tr sc = Raise ValidationError) /\
  (is_ok (STTransform_init o ax un tr sc) = true <->
   equal_lengths ax un tr sc) /\
  (equal_lengths ax un tr sc ->
   STTransform_init o ax un tr sc = Ok (mkSTTransform o ax un tr sc)).
Proof.
  split; [apply STTransform_init_unequal_lengths |].
  split; [| apply STTransform_init_equal_lengths].
  split.
  - intros Hok.
    destruct (Nat.eq_dec (length ax) (length un)) as [H1 | H1].
    destruct (Nat.eq_dec (length un) (length tr)) as [H2 | H2].
    destruct (Nat.eq_dec (length tr) (length sc)) as [H3 | H3].
    + repeat split; assumption.
    + rewrite STTransform_init_unequal_lengths in Hok; [discriminate |].
      intros (_ & _ & H). contradiction.
    + rewrite STTransform_init_unequal_lengths in Hok; [discriminate |].
      intros (_ & H & _). contradiction.
    + rewrite STTransform_init_unequal_lengths in Hok; [discriminate |].
      intros (H & _ & _). contradiction.
  - intros H. now rewrite STTransform_init_equal_lengths.
Qed.

(** Two sequences of axes against one unit are rejected; one of each is
    accepted. *)
Lemma STTransform_init_length_invariant_witness :
  STTransform_init (Some OrderC) ["z"; "y"] ["nm"] [0%Q; 0%Q] [1%Q; 1%Q] =
    Raise ValidationError /\
  STTransform_init (Some OrderF) ["z"] ["nm"] [0%Q] [1%Q] =
    Ok (mkSTTransform (Some OrderF) ["z"] ["nm"] [0%Q] [1%Q]).
Proof.
  split.
  - apply (proj1 (STTransform_init_length_invariant (Some OrderC)
                    ["z"; "y"] ["nm"] [0%Q; 0%Q] [1%Q; 1%Q])).
    intros (H & _). discriminate H.
  - apply (proj2 (proj2 (STTransform_init_length_invariant (Some OrderF)
                           ["z"] ["nm"] [0%Q] [1%Q]))).
    repeat split.
Defined.

(** ** Inference *)

(** C6. Inference fails whenever some coordinate sequence has fewer than
    two elements, and whenever some computed scale is not strictly
    positive, in particular when the first two values of a sequence are
    equal; from a sequence that starts with [a < b] the inferred scale is
    [b - a], which is strictly positive. *)
Theorem from_coords_rejects_degenerate :
  (forall cs o,
     Exists (fun c => length (values c) < 2) cs ->
     exists e, from_coords cs o = Raise e) /\
  (forall cs o,
     Exists (fun c => ~ (0 < spacing c)%Q) cs ->
     exists e, from_coords cs o = Raise e) /\
  (forall cs o,
     Exists (fun c => (first_value c == second_value c)%Q) cs ->
     exists e, from_coords cs o = Raise e) /\
  (forall d u a b rest o,
     (a < b)%Q ->
     exists t,
       from_coords [mkCoordinate d u (a :: b :: rest)] o = Ok t /\
       scale t = [(b - a)%Q] /\ (0 < b - a)%Q).
Proof.
  repeat split.
  - intros cs o H. apply from_coords_not_inferable.
    eapply Exists_impl; [| exact H].
    intros c Hc [Hl _]. simpl in Hc. lia.
  - intros cs o H. apply from_coords_not_inferable.
    eapply Exists_impl; [| exact H].
    intros c Hc [_ Hp]. simpl in Hc. contradiction.
  - intros cs o H. apply from_coords_not_inferable.
    eapply Exists_impl; [| exact H].
    intros c Hc [_ Hp]. simpl in Hc.
    revert Hp. apply Qabs_diff_zero. exact Hc.
  - intros d u a b rest o Hab.
    assert (Hpos : (0 < b - a)%Q) by lra.
    assert (Hinf : inferable (mkCoordinate d u (a :: b :: rest))).
    { split; [simpl; lia |].
      change (0 < Qabs (b - a))%Q.
      rewrite Qabs_of_positive; assumption. }
    eexists. split.
    + apply from_coords_inferable. now constructor.
    + split; [| exact Hpos].
      change ([Qabs (b - a)] = [(b - a)%Q]).
      now rewrite Qabs_of_positive.
Qed.

(** A single sample, two equal samples, and the samples 1, 4, 5. *)
Lemma from_coords_rejects_degenerate_witness :
  (exists e, from_coords [mkCoordinate "x" None [1%Q]] OrderC = Raise e) /\
  (exists e, from_coords [mkCoordinate "x" None [3%Q; 3%Q]] OrderC = Raise e) /\
  (exists t,
     from_coords [mkCoordinate "x" None [1%Q; 4%Q; 5%Q]] OrderC = Ok t /\
     scale t = [(4 - 1)%Q] /\ (0 < 4 - 1)%Q).
Proof.
  destruct from_coords_rejects_degenerate as (Hshort & _ & Hequal & Hscale).
  split; [| split].
  - apply Hshort. left. simpl. lia.
  - apply Hequal. left. reflexivity.
  - apply Hscale. reflexivity.
Defined.




(** C10. Inference reads the dimension name, the unit annotation and the
    first two samples of each coordinate sequence and nothing else: two
    inputs that agree pairwise on these give the same result, whatever
    their remaining samples are. *)
Theorem from_coords_first_two_samples
  (cs cs' : list Coordinate) (o : Order) :
  Forall2 agree cs cs' -> from_coords cs o = from_coords cs' o.
Proof.
  intros H. unfold from_coords.
  assert (E : forall acc, from_coords_loop cs acc = from_coords_loop cs' acc).
  { induction H as [| c c' cs cs' Hc _ IH]; intros acc; [reflexivity |].
    simpl.
    assert (Es : from_coords_step acc c = from_coords_step acc c').
    { destruct Hc as (Hd & Hu & Hv). unfold from_coords_step.
      rewrite Hd, Hu.
      destruct (values c) as [| a [| b r]], (values c') as [| a' [| b' r']];
        simpl in Hv; try discriminate; try reflexivity.
      injection Hv as -> ->. reflexivity. }
    rewrite Es. destruct (from_coords_step acc c'); simpl; [apply IH | easy]. }
  now rewrite E.
Qed.

(** The samples 0, 1, 2, 3 and the unevenly spaced 0, 1, 7 give the same
    result. *)
Lemma from_coords_first_two_samples_witness :
  from_coords [mkCoordinate "x" (Some "nm") [0%Q; 1%Q; 2%Q; 3%Q]] OrderC =
  from_coords [mkCoordinate "x" (Some "nm") [0%Q; 1%Q; 7%Q]] OrderC.
Proof.
  apply (from_coords_first_two_samples
           [mkCoordinate "x" (Some "nm") [0%Q; 1%Q; 2%Q; 3%Q]]
           [mkCoordinate "x" (Some "nm") [0%Q; 1%Q; 7%Q]] OrderC).
  repeat constructor.
Defined.

(** C9. For a labelled array whose coordinates each have two samples or
    more and a strictly positive spacing, [from_xarray] with
    [reverse_axes] set returns a transform whose axes are the reverse of
    the axes returned without it; the former is tagged ["F"], the latter
    ["C"]. *)
Theorem from_xarray_reverse_axes (array : DataArray) :
  Forall inferable (coords array) ->
  exists tF tC,
    from_xarray array true = Ok tF /\
    from_xarray array false = Ok tC /\
    axes tF = rev (axes tC) /\
    order tF = Some OrderF /\
    order tC = Some OrderC.
Proof.
  intros H. unfold from_xarray. simpl.
  rewrite (from_coords_inferable (coords array) OrderC H).
  rewrite (from_coords_inferable (rev (coords array)) OrderF)
    by (apply Forall_rev; exact H).
  do 2 eexists. repeat split. simpl. apply map_rev.
Qed.

(** An array with the coordinates z and x. *)
Lemma from_xarray_reverse_axes_witness :
  exists tF tC,
    from_xarray
      (mkDataArray
         [mkCoordinate "z" None [0%Q; 4%Q]; mkCoordinate "x" None [1%Q; 3%Q]]
         [2; 2] "uint8" None) true = Ok tF /\
    from_xarray
      (mkDataArray
         [mkCoordinate "z" None [0%Q; 4%Q]; mkCoordinate "x" None [1%Q; 3%Q]]
         [2; 2] "uint8" None) false = Ok tC /\
    axes tF = rev (axes tC) /\
    order tF = Some OrderF /\
    order tC = Some OrderC.
Proof.
  apply (from_xarray_reverse_axes
           (mkDataArray
              [mkCoordinate "z" None [0%Q; 4%Q];
               mkCoordinate "x" None [1%Q; 3%Q]]
              [2; 2] "uint8" None)).
  repeat constructor.
Defined.

(** ** Coordinate generation *)

Lemma comprehension_map {A B : Type} (f : A -> result B) (g : A -> B)
  (l : list A) :
  (forall a, In a l -> f a = Ok (g a)) -> comprehension f l = Ok (map g l).
Proof.
  induction l as [| a l IH]; intros H; simpl; [reflexivity |].
  rewrite (H a) by now left. simpl.
  rewrite IH by (intros; apply H; now right). reflexivity.
Qed.

Lemma getitem_nth {A : Type} (l : list A) (idx : nat) (d : A) :
  idx < length l -> getitem l idx = Ok (nth idx l d).
Proof.
  intros H. unfold getitem.
  now rewrite (nth_error_nth' l d H).
Qed.

Lemma enumerate_from_index {A : Type} (l : list A) :
  forall start idx (a : A),
    In (idx, a) (enumerate_from start l) ->
    start <= idx < start + length l.
Proof.
  induction l as [| x l IH]; intros start idx a; simpl; [tauto |].
  intros [E | H].
  - injection E as <- _. lia.
  - apply IH in H. lia.
Qed.

Lemma enumerate_from_snd {A : Type} (l : list A) :
  forall start, map snd (enumerate_from start l) = l.
Proof.
  induction l as [| x l IH]; intros start; simpl; [reflexivity |].
  now rewrite IH.
Qed.

Lemma skipn_nth_cons {A : Type} (d : A) (l : list A) :
  forall start, start < length l ->
    skipn start l = nth start l d :: skipn (S start) l.
Proof.
  induction l as [| x l IH]; intros start H; simpl in H; [lia |].
  destruct start as [| start]; [reflexivity |].
  simpl. apply IH. lia.
Qed.

(** Looking a sequence up at the indices of an enumeration of the same
    length gives the sequence back. *)
Lemma enumerate_from_lookup {A B : Type} (d : B) (l : list B) (l' : list A) :
  forall start,
    start + length l' = length l ->
    map (fun p => nth (fst p) l d) (enumerate_from start l') = skipn start l.
Proof.
  induction l' as [| a l' IH]; intros start H; simpl in *.
  - rewrite skipn_all2; [reflexivity | lia].
  - rewrite IH by lia. symmetry. apply skipn_nth_cons. lia.
Qed.

Lemma enumerate_lookup {A B : Type} (d : B) (l : list B) (l' : list A) :
  length l' = length l ->
  map (fun p => nth (fst p) l d) (enumerate l') = l.
Proof.
  intros H. unfold enumerate. now rewrite enumerate_from_lookup.
Qed.

Lemma Forall2_map_same {A B : Type} (R : B -> B -> Prop) (f g : A -> B)
  (l : list A) :
  (forall a, In a l -> R (f a) (g a)) -> Forall2 R (map f l) (map g l).
Proof.
  induction l as [| a l IH]; intros H; simpl; constructor.
  - apply H. now left.
  - apply IH. intros; apply H; now right.
Qed.

Lemma length_traversed_axes (self : STTransform) :
  length (traversed_axes self) = length (axes self).
Proof.
  unfold traversed_axes.
  destruct (order self) as [[|] |]; now rewrite ?length_rev.
Qed.

(** [to_coords] returns when the transform satisfies the length invariant
    and the shape has an entry per axis, and then pairs the [idx]-th
    traversed axis with the [idx]-th shape, scale, translate and unit. *)
Lemma to_coords_ok (self : STTransform) (shape : list nat) :
  equal_lengths (axes self) (units self) (translate self) (scale self) ->
  length (axes self) <= length shape ->
  to_coords self shape =
    Ok (map (coord_at self shape) (enumerate (traversed_axes self))).
Proof.
  intros (H1 & H2 & H3) Hs. unfold to_coords.
  fold (traversed_axes self).
  apply comprehension_map. intros [idx k] Hin.
  apply enumerate_from_index in Hin.
  rewrite length_traversed_axes in Hin. simpl in Hin.
  rewrite (getitem_nth shape idx 0) by lia. simpl.
  rewrite (getitem_nth (scale self) idx 0%Q) by lia. simpl.
  rewrite (getitem_nth (translate self) idx 0%Q) by lia. simpl.
  rewrite (getitem_nth (units self) idx "") by lia. simpl.
  reflexivity.
Qed.

(** ** The round trip in binary64 *)

Module RoundTrip64.

Import Float64.
Import PrimFloat.










End RoundTrip64.

(** C3. The column-major path of [to_coords] at a concrete transform.
    [from_xarray] with [reverse_axes] set turns an array with coordinates
    y (10, 12, in um) and x (0, 1, in nm) into the column-major transform
    over x, y whose sequences keep each axis with its own values.
    [to_coords] on that transform walks the axes in reverse but looks
    scale, translate and unit up by the forward index: the coordinate
    named y is built from the values of x and the coordinate named x from
    the values of y, so the coordinates of the array do not come back. *)
Theorem to_coords_column_major_pairing :
  let A :=
    mkDataArray
      [mkCoordinate "y" (Some "um") [10%Q; 12%Q];
       mkCoordinate "x" (Some "nm") [0%Q; 1%Q]]
      [2; 2] "uint8" None in
  let T :=
    mkSTTransform (Some OrderF) ["x"; "y"] ["nm"; "um"] [0%Q; 10%Q]
      [1%Q; 2%Q] in
  from_xarray A true = Ok T /\
  to_coords T (shape A) =
    Ok [mkCoordinate "y" (Some "nm") [0%Q; 1%Q];
        mkCoordinate "x" (Some "um") [10%Q; 12%Q]] /\
  to_coords T (shape A) <> Ok (coords A).
Proof.
  repeat split; vm_compute; try reflexivity. discriminate.
Qed.

(** * Properties of cosem.py *)

Import Cosem.

Lemma normalize_chunks_mismatch (arrays : list DataArray)
  (chunks : list (list nat)) :
  length chunks <> length arrays ->
  normalize_chunks arrays (Explicit chunks) = Raise ValidationError.
Proof.
  intros H. unfold normalize_chunks.
  destruct (Nat.eqb_spec (length chunks) (length arrays)); [contradiction |].
  reflexivity.
Qed.






(** The mapping with the one entry s0: the automatic chunk policy fails
    on the name, and with the explicit chunk shape (2,) the member is
    built with [chunks="s0"], which is rejected. *)
Lemma CosemMultiscaleGroupV1_from_xarrays_one_entry :
  CosemMultiscaleGroupV1_from_xarrays
    [("s0", mkDataArray [mkCoordinate "x" (Some "nm") [0%Q; 1%Q]] [2] "uint8"
              None)]
    Auto None [] = Raise AttributeError /\
  CosemMultiscaleGroupV1_from_xarrays
    [("s0", mkDataArray [mkCoordinate "x" (Some "nm") [0%Q; 1%Q]] [2] "uint8"
              None)]
    (Explicit [[2]]) None [] = Raise ValidationError.
Proof.
  split; vm_compute; reflexivity.
Qed.



(** C4. [multiscale_group] returns what
    [CosemMultiscaleGroupV1.from_xarrays] returns on the arrays alone,
    with every other argument at its default: the [chunks] argument and
    the extra keyword arguments do not reach the result, so two calls on
    the same arrays agree whatever these are. *)
Theorem multiscale_group_ignores_chunks
  (arrays : list (string * DataArray)) (chunks : policy (list nat))
  (kw : kwargs) :
  multiscale_group arrays chunks kw =
    CosemMultiscaleGroupV1_from_xarrays arrays Auto None [] /\
  forall chunks' kw',
    multiscale_group arrays chunks kw = multiscale_group arrays chunks' kw'.
Proof.
  split.
  - reflexivity.
  - intros chunks' kw'. reflexivity.
Qed.

(** C5, counterexample. One array and the two explicit paths a, b: the
    v2 metadata builder returns a document. *)
Lemma policy_length_mismatch_fails_counterexample :
  ~ policy_length_mismatch_fails.
Proof.
  intros (_ & H & _).
  destruct
    (H [mkDataArray [mkCoordinate "x" (Some "nm") [0%Q; 1%Q]] [2] "uint8"
          None] ["a"; "b"] None)
    as [e He].
  - simpl. lia.
  - discriminate He.
Qed.

(** C5, amended. A group builder given an explicit chunk list whose
    length differs from the number of arrays fails with a validation
    error and returns no document.  An explicit path list is not checked
    against the number of arrays: [normalize_paths] returns it as it is,
    and the v2 metadata builder returns the document that lists exactly
    these paths. *)
Theorem policy_length_mismatch_amended :
  (forall arrays chunks name kw,
     length chunks <> length arrays ->
     CosemMultiscaleGroupV1_from_xarrays arrays (Explicit chunks) name kw =
       Raise ValidationError) /\
  (forall arrays chunks paths name kw,
     length chunks <> length arrays ->
     CosemMultiscaleGroupV2_from_xarrays arrays (Explicit chunks) paths
       name kw = Raise ValidationError) /\
  (forall (arrays : list DataArray) paths,
     normalize_paths arrays (Explicit paths) = paths) /\
  (forall arrays paths name,
     CosemGroupMetadataV2_from_xarrays arrays (Explicit paths) name =
       Ok (mkCosemGroupMetadataV2 [mkMultiscaleMetaV2 name paths])).
Proof.
  repeat split.
  - intros arrays chunks name kw H.
    unfold CosemMultiscaleGroupV1_from_xarrays, normalize_chunks_of_names.
    unfold dict_keys. rewrite length_map.
    destruct (Nat.eqb_spec (length chunks) (length arrays));
      [contradiction | reflexivity].
  - intros arrays chunks paths name kw H.
    unfold CosemMultiscaleGroupV2_from_xarrays.
    now rewrite normalize_chunks_mismatch.
Qed.

(** One array against two chunk shapes, and against two paths. *)
Lemma policy_length_mismatch_amended_witness :
  CosemMultiscaleGroupV2_from_xarrays
    [mkDataArray [mkCoordinate "x" (Some "nm") [0%Q; 1%Q]] [2] "uint8" None]
    (Explicit [[2]; [1]]) Auto None [] = Raise ValidationError /\
  CosemGroupMetadataV2_from_xarrays
    [mkDataArray [mkCoordinate "x" (Some "nm") [0%Q; 1%Q]] [2] "uint8" None]
    (Explicit ["a"; "b"]) None =
    Ok (mkCosemGroupMetadataV2 [mkMultiscaleMetaV2 None ["a"; "b"]]).
Proof.
  destruct policy_length_mismatch_amended as (_ & Hchunks & _ & Hpaths).
  split.
  - apply Hchunks. simpl. lia.
  - apply Hpaths.
Defined.

(** * Further properties of transform.py *)

(** ** Inference: what a returned transform tells, and which error comes
    first *)

Lemma inferable_dec (c : Coordinate) : {inferable c} + {~ inferable c}.
Proof.
  unfold inferable.
  destruct (le_dec 2 (length (values c))) as [Hl | Hl];
    [| right; tauto].
  destruct (Qlt_le_dec 0 (spacing c)) as [Hp | Hp].
  - left. tauto.
  - right. intros [_ H]. lra.
Qed.

Lemma from_coords_loop_app (cs1 cs2 : list Coordinate) :
  forall acc,
    from_coords_loop (cs1 ++ cs2) acc =
      (acc' <- from_coords_loop cs1 acc ;; from_coords_loop cs2 acc').
Proof.
  induction cs1 as [| c cs1 IH]; intros acc; simpl; [reflexivity |].
  destruct (from_coords_step acc c) as [acc' | e]; simpl; [apply IH | easy].
Qed.

Lemma from_coords_loop_ok_inv (cs : list Coordinate) :
  forall acc acc',
    from_coords_loop cs acc = Ok acc' -> Forall inferable cs.
Proof.
  induction cs as [| c cs IH]; intros acc acc' H; [constructor |].
  simpl in H.
  destruct (inferable_dec c) as [Hc | Hc].
  - constructor; [exact Hc |].
    rewrite (from_coords_step_inferable acc c Hc) in H. simpl in H.
    eapply IH. exact H.
  - destruct (from_coords_step_not_inferable acc c Hc) as [e He].
    rewrite He in H. discriminate.
Qed.

Lemma from_coords_ok_inv (cs : list Coordinate) (o : Order) (t : STTransform) :
  from_coords cs o = Ok t ->
  Forall inferable cs /\
  t = mkSTTransform (Some o) (map dim cs) (map unit_of cs)
        (map first_value cs) (map spacing cs).
Proof.
  intros H.
  assert (Hinf : Forall inferable cs).
  { unfold from_coords in H.
    destruct (from_coords_loop cs (mkAcc [] [] [] [])) as [acc |] eqn:E;
      [| discriminate].
    eapply from_coords_loop_ok_inv. exact E. }
  split; [exact Hinf |].
  rewrite (from_coords_inferable cs o Hinf) in H. now injection H.
Qed.

(** The exception of an iteration does not depend on what was
    accumulated before it. *)
Lemma from_coords_loop_error_acc (cs : list Coordinate) (e : exn) :
  forall acc acc',
    from_coords_loop cs acc = Raise e -> from_coords_loop cs acc' = Raise e.
Proof.
  induction cs as [| c cs IH]; intros acc acc' H; simpl in *; [discriminate |].
  destruct (inferable_dec c) as [Hc | Hc].
  - rewrite (from_coords_step_inferable acc c Hc) in H.
    rewrite (from_coords_step_inferable acc' c Hc). simpl in *.
    eapply IH. exact H.
  - clear IH. revert H. unfold from_coords_step.
    destruct (Nat.ltb_spec (length (values c)) 2) as [Hl | Hl]; [easy |].
    rewrite !last_last.
    destruct (Qpositive _) eqn:E; [| easy].
    exfalso. apply Hc. split; [exact Hl |].
    apply Qpositive_spec. exact E.
Qed.

Lemma from_coords_raise_inv (cs : list Coordinate) (o : Order) (e : exn) :
  from_coords cs o = Raise e ->
  forall acc, from_coords_loop cs acc = Raise e.
Proof.
  intros H acc.
  destruct (from_coords_loop cs (mkAcc [] [] [] [])) as [a | e'] eqn:E.
  - apply from_coords_loop_ok_inv in E.
    rewrite (from_coords_inferable cs o E) in H. discriminate.
  - unfold from_coords in H. rewrite E in H. simpl in H. injection H as <-.
    eapply from_coords_loop_error_acc. exact E.
Qed.

(** X1. A transform returned by [from_coords] is a valid one: its four
    sequences have one length, the number of coordinate sequences given,
    every scale is strictly positive and its order is the order asked
    for; and every coordinate sequence given had two samples or more and
    a strictly positive spacing. *)
Theorem from_coords_returns_valid
  (cs : list Coordinate) (o : Order) (t : STTransform) :
  from_coords cs o = Ok t ->
  valid t /\
  order t = Some o /\
  length (axes t) = length cs /\
  Forall inferable cs.
Proof.
  intros H. apply from_coords_ok_inv in H. destruct H as [Hinf ->].
  unfold valid, equal_lengths. cbn [order axes units translate scale].
  rewrite !length_map.
  assert (Hpos : Forall (fun s => (0 < s)%Q) (map spacing cs)).
  { apply Forall_map. eapply Forall_impl; [| exact Hinf].
    intros c [_ Hp]. exact Hp. }
  assert (Ho : Some o = Some OrderC \/ Some o = Some OrderF)
    by (destruct o; [now left | now right]).
  tauto.
Qed.

(** The coordinates z = 0, 4, 8 and y = 1/2, 1. *)
Lemma from_coords_returns_valid_witness :
  valid
    (mkSTTransform (Some OrderC) ["z"; "y"] ["m"; "nm"] [0%Q; (1 # 2)%Q]
       [4%Q; (1 # 2)%Q]) /\
  order
    (mkSTTransform (Some OrderC) ["z"; "y"] ["m"; "nm"] [0%Q; (1 # 2)%Q]
       [4%Q; (1 # 2)%Q]) = Some OrderC /\
  length
    (axes
       (mkSTTransform (Some OrderC) ["z"; "y"] ["m"; "nm"] [0%Q; (1 # 2)%Q]
          [4%Q; (1 # 2)%Q])) =
    length
      [mkCoordinate "z" None [0%Q; 4%Q; 8%Q];
       mkCoordinate "y" (Some "nm") [(1 # 2)%Q; 1%Q]] /\
  Forall inferable
    [mkCoordinate "z" None [0%Q; 4%Q; 8%Q];
     mkCoordinate "y" (Some "nm") [(1 # 2)%Q; 1%Q]].
Proof.
  apply (from_coords_returns_valid
           [mkCoordinate "z" None [0%Q; 4%Q; 8%Q];
            mkCoordinate "y" (Some "nm") [(1 # 2)%Q; 1%Q]] OrderC).
  vm_compute. reflexivity.
Defined.

(** X2. The exception of [from_coords] is that of the first coordinate
    sequence the loop does not get past: [ValueError] when that sequence
    has fewer than two samples, [AssertionError] when it has two or more
    and its spacing is not strictly positive, whatever follows it. *)
Theorem from_coords_first_error
  (good : list Coordinate) (c : Coordinate) (rest : list Coordinate)
  (o : Order) :
  Forall inferable good ->
  (length (values c) < 2 ->
   from_coords (good ++ c :: rest) o = Raise ValueError) /\
  (2 <= length (values c) -> ~ (0 < spacing c)%Q ->
   from_coords (good ++ c :: rest) o = Raise AssertionError).
Proof.
  intros Hgood. unfold from_coords.
  rewrite from_coords_loop_app, (from_coords_loop_inferable good Hgood).
  simpl. unfold from_coords_step. split.
  - intros Hl.
    destruct (Nat.ltb_spec (length (values c)) 2); [reflexivity | lia].
  - intros Hl Hp.
    destruct (Nat.ltb_spec (length (values c)) 2); [lia |].
    rewrite last_last.
    destruct (Qpositive _) eqn:E; [| reflexivity].
    apply Qpositive_spec in E. contradiction.
Qed.

(** A good coordinate followed by a single sample, and by two equal
    samples; a further short sequence comes after each. *)
Lemma from_coords_first_error_witness :
  from_coords
    [mkCoordinate "z" None [0%Q; 1%Q]; mkCoordinate "y" None [3%Q];
     mkCoordinate "x" None [2%Q; 2%Q]] OrderC = Raise ValueError /\
  from_coords
    [mkCoordinate "z" None [0%Q; 1%Q]; mkCoordinate "y" None [2%Q; 2%Q];
     mkCoordinate "x" None [3%Q]] OrderC = Raise AssertionError.
Proof.
  split.
  - apply (from_coords_first_error [mkCoordinate "z" None [0%Q; 1%Q]]
             (mkCoordinate "y" None [3%Q])
             [mkCoordinate "x" None [2%Q; 2%Q]] OrderC).
    + repeat constructor.
    + simpl. lia.
  - apply (from_coords_first_error [mkCoordinate "z" None [0%Q; 1%Q]]
             (mkCoordinate "y" None [2%Q; 2%Q])
             [mkCoordinate "x" None [3%Q]] OrderC).
    + repeat constructor.
    + simpl. lia.
    + vm_compute. discriminate.
Defined.

(** X3. The [order] argument of [from_coords] is a tag on the result and
    nothing more: with ["F"] the axes, units, translate and scale are the
    ones returned with ["C"], in the same positions, and the call fails
    with the same exception. *)
Theorem from_coords_order_is_a_tag (cs : list Coordinate) :
  from_coords cs OrderF =
    match from_coords cs OrderC with
    | Ok t =>
        Ok (mkSTTransform (Some OrderF) (axes t) (units t) (translate t)
              (scale t))
    | Raise e => Raise e
    end.
Proof.
  unfold from_coords.
  destruct (from_coords_loop cs (mkAcc [] [] [] [])) as [acc | e]; simpl;
    [| reflexivity].
  unfold STTransform_init, validate_argument_length. simpl.
  destruct (_ && _); reflexivity.
Qed.

(** X4. Inference over a concatenation of coordinate sequences: when
    both parts are accepted the result is the fieldwise concatenation of
    their transforms; an exception of the first part is the exception of
    the whole; and when the first part is accepted, an exception of the
    second part is the exception of the whole. *)
Theorem from_coords_app (cs1 cs2 : list Coordinate) (o : Order) :
  (forall t1 t2,
     from_coords cs1 o = Ok t1 ->
     from_coords cs2 o = Ok t2 ->
     from_coords (cs1 ++ cs2) o =
       Ok (mkSTTransform (Some o) (axes t1 ++ axes t2) (units t1 ++ units t2)
             (translate t1 ++ translate t2) (scale t1 ++ scale t2))) /\
  (forall e,
     from_coords cs1 o = Raise e -> from_coords (cs1 ++ cs2) o = Raise e) /\
  (forall t1 e,
     from_coords cs1 o = Ok t1 ->
     from_coords cs2 o = Raise e ->
     from_coords (cs1 ++ cs2) o = Raise e).
Proof.
  repeat split.
  - intros t1 t2 H1 H2.
    apply from_coords_ok_inv in H1, H2.
    destruct H1 as [I1 ->], H2 as [I2 ->].
    rewrite from_coords_inferable by (apply Forall_app; now split).
    simpl. now rewrite !map_app.
  - intros e H. unfold from_coords. rewrite from_coords_loop_app.
    now rewrite (from_coords_raise_inv cs1 o e H).
  - intros t1 e H1 H2. apply from_coords_ok_inv in H1. destruct H1 as [I1 _].
    unfold from_coords.
    rewrite from_coords_loop_app, (from_coords_loop_inferable cs1 I1).
    simpl. now rewrite (from_coords_raise_inv cs2 o e H2).
Qed.

(** One coordinate, then one more; and one coordinate, then a single
    sample. *)
Lemma from_coords_app_witness :
  from_coords
    ([mkCoordinate "z" None [0%Q; 4%Q]] ++
     [mkCoordinate "x" (Some "nm") [1%Q; 3%Q]]) OrderC =
    Ok (mkSTTransform (Some OrderC) (["z"] ++ ["x"]) (["m"] ++ ["nm"])
          ([0%Q] ++ [1%Q]) ([4%Q] ++ [2%Q])) /\
  from_coords
    ([mkCoordinate "z" None [0%Q; 4%Q]] ++ [mkCoordinate "x" None [1%Q]])
    OrderC = Raise ValueError.
Proof.
  split.
  - apply (proj1 (from_coords_app [mkCoordinate "z" None [0%Q; 4%Q]]
                    [mkCoordinate "x" (Some "nm") [1%Q; 3%Q]] OrderC)
             (mkSTTransform (Some OrderC) ["z"] ["m"] [0%Q] [4%Q])
             (mkSTTransform (Some OrderC) ["x"] ["nm"] [1%Q] [2%Q]));
      reflexivity.
  - apply (proj2 (proj2 (from_coords_app [mkCoordinate "z" None [0%Q; 4%Q]]
                           [mkCoordinate "x" None [1%Q]] OrderC))
             (mkSTTransform (Some OrderC) ["z"] ["m"] [0%Q] [4%Q]));
      reflexivity.
Defined.

(** X5. [from_xarray] with [reverse_axes] set returns the transform
    returned without it with each of its four sequences reversed, so
    every axis keeps its own unit, translate and scale, and with the tag
    ["F"]; and it returns exactly when the call without [reverse_axes]
    returns. *)
Theorem from_xarray_reverses_every_field (array : DataArray) :
  (forall t,
     from_xarray array false = Ok t ->
     from_xarray array true =
       Ok (mkSTTransform (Some OrderF) (rev (axes t)) (rev (units t))
             (rev (translate t)) (rev (scale t)))) /\
  is_ok (from_xarray array true) = is_ok (from_xarray array false).
Proof.
  unfold from_xarray. simpl.
  assert (Hrev :
    Forall inferable (coords array) ->
    from_coords (rev (coords array)) OrderF =
      Ok (mkSTTransform (Some OrderF) (rev (map dim (coords array)))
            (rev (map unit_of (coords array)))
            (rev (map first_value (coords array)))
            (rev (map spacing (coords array))))).
  { intros H. rewrite from_coords_inferable by now apply Forall_rev.
    now rewrite !map_rev. }
  split.
  - intros t H. apply from_coords_ok_inv in H. destruct H as [Hinf ->].
    simpl. now apply Hrev.
  - destruct (Forall_Exists_dec inferable inferable_dec (coords array))
      as [Hinf | Hex].
    + now rewrite (Hrev Hinf), (from_coords_inferable _ OrderC Hinf).
    + destruct (from_coords_not_inferable (coords array) OrderC Hex)
        as [e ->].
      apply Exists_rev in Hex.
      destruct (from_coords_not_inferable _ OrderF Hex) as [e' ->].
      reflexivity.
Qed.

(** An array with the coordinates z (in m) and x (in nm). *)
Lemma from_xarray_reverses_every_field_witness :
  from_xarray
    (mkDataArray
       [mkCoordinate "z" None [0%Q; 4%Q];
        mkCoordinate "x" (Some "nm") [1%Q; 3%Q]]
       [2; 2] "uint8" None) true =
    Ok (mkSTTransform (Some OrderF) ["x"; "z"] ["nm"; "m"] [1%Q; 0%Q]
          [2%Q; 4%Q]).
Proof.
  apply (proj1 (from_xarray_reverses_every_field
                  (mkDataArray
                     [mkCoordinate "z" None [0%Q; 4%Q];
                      mkCoordinate "x" (Some "nm") [1%Q; 3%Q]]
                     [2; 2] "uint8" None))
           (mkSTTransform (Some OrderC) ["z"; "x"] ["m"; "nm"] [0%Q; 1%Q]
              [4%Q; 2%Q])).
  reflexivity.
Defined.



(** ** Coordinate generation: what is read and what comes out *)

Lemma comprehension_ext {A B : Type} (f g : A -> result B) (l : list A) :
  (forall a, In a l -> f a = g a) -> comprehension f l = comprehension g l.
Proof.
  induction l as [| a l IH]; intros H; simpl; [reflexivity |].
  rewrite (H a) by now left.
  rewrite IH by (intros; apply H; now right). reflexivity.
Qed.

(** Looking a longer sequence up at the indices of an enumeration gives
    its first entries. *)
Lemma enumerate_from_lookup_prefix {A B : Type} (d : B) (l : list B)
  (l' : list A) :
  forall start,
    start + length l' <= length l ->
    map (fun p => nth (fst p) l d) (enumerate_from start l') =
      firstn (length l') (skipn start l).
Proof.
  induction l' as [| a l' IH]; intros start H; simpl in *; [reflexivity |].
  rewrite IH by lia.
  rewrite (skipn_nth_cons d l start) by lia. reflexivity.
Qed.

(** The loop of [to_coords] on a shape that ends before the axes do. *)
Lemma to_coords_loop_short (self : STTransform) (shape : list nat) :
  forall (ks : list string) (start : nat),
    start <= length shape < start + length ks ->
    length shape <= length (scale self) ->
    length shape <= length (translate self) ->
    length shape <= length (units self) ->
    comprehension
      (fun '(idx, k) =>
         n <- getitem shape idx ;;
         s <- getitem (scale self) idx ;;
         t <- getitem (translate self) idx ;;
         u <- getitem (units self) idx ;;
         Ok (stt_coord n k s t u))
      (enumerate_from start ks) = Raise IndexError.
Proof.
  induction ks as [| a ks IH]; intros start H Hs Ht Hu; simpl in *;
    [lia |].
  destruct (Nat.eq_dec start (length shape)) as [-> | Hne].
  - unfold getitem at 1.
    assert (E : nth_error shape (length shape) = None)
      by (apply nth_error_None; lia).
    rewrite E. reflexivity.
  - rewrite (getitem_nth shape start 0) by lia. simpl.
    rewrite (getitem_nth (scale self) start 0%Q) by lia. simpl.
    rewrite (getitem_nth (translate self) start 0%Q) by lia. simpl.
    rewrite (getitem_nth (units self) start "") by lia. simpl.
    rewrite IH by lia. reflexivity.
Qed.

(** X7. On a transform that satisfies the length invariant, [to_coords]
    returns exactly when the shape has an entry for each axis, and on a
    shorter shape it raises [IndexError]. *)
Theorem to_coords_needs_an_entry_per_axis
  (T : STTransform) (shape : list nat) :
  equal_lengths (axes T) (units T) (translate T) (scale T) ->
  (is_ok (to_coords T shape) = true <-> length (axes T) <= length shape) /\
  (length shape < length (axes T) -> to_coords T shape = Raise IndexError).
Proof.
  intros Hlen.
  assert (Hshort :
    length shape < length (axes T) -> to_coords T shape = Raise IndexError).
  { intros H. destruct Hlen as (H1 & H2 & H3).
    unfold to_coords, enumerate.
    apply to_coords_loop_short; try lia.
    fold (traversed_axes T). rewrite length_traversed_axes. lia. }
  split; [| exact Hshort].
  split.
  - intros Hok.
    destruct (le_lt_dec (length (axes T)) (length shape)) as [H | H];
      [exact H |].
    rewrite (Hshort H) in Hok. discriminate.
  - intros H. now rewrite (to_coords_ok T shape Hlen H).
Qed.

(** Two axes on the shapes (2, 3) and (2,). *)
Lemma to_coords_needs_an_entry_per_axis_witness :
  is_ok
    (to_coords
       (mkSTTransform (Some OrderC) ["z"; "x"] ["nm"; "nm"] [0%Q; 0%Q]
          [1%Q; 1%Q]) [2; 3]) = true /\
  to_coords
    (mkSTTransform (Some OrderF) ["z"; "x"] ["nm"; "nm"] [0%Q; 0%Q]
       [1%Q; 1%Q]) [2] = Raise IndexError.
Proof.
  split.
  - apply (proj1 (to_coords_needs_an_entry_per_axis
                    (mkSTTransform (Some OrderC) ["z"; "x"] ["nm"; "nm"]
                       [0%Q; 0%Q] [1%Q; 1%Q]) [2; 3]
                    (conj eq_refl (conj eq_refl eq_refl)))).
    simpl. lia.
  - apply (proj2 (to_coords_needs_an_entry_per_axis
                    (mkSTTransform (Some OrderF) ["z"; "x"] ["nm"; "nm"]
                       [0%Q; 0%Q] [1%Q; 1%Q]) [2]
                    (conj eq_refl (conj eq_refl eq_refl)))).
    simpl. lia.
Defined.

(** X8. On a transform that satisfies the length invariant and a shape
    with an entry for each axis, [to_coords] returns one coordinate per
    axis; the [i]-th coordinate has [shape[i]] samples and carries
    [units[i]]; the dimension names are the axes in their order for the
    order ["C"] and the axes reversed for any other order. *)
Theorem to_coords_labels (T : STTransform) (shape : list nat) :
  equal_lengths (axes T) (units T) (translate T) (scale T) ->
  length (axes T) <= length shape ->
  exists cs,
    to_coords T shape = Ok cs /\
    length cs = length (axes T) /\
    map dim cs =
      match order T with
      | Some OrderC => axes T
      | _ => rev (axes T)
      end /\
    map attrs_units cs = map Some (units T) /\
    map (fun c => length (values c)) cs = firstn (length (axes T)) shape.
Proof.
  intros Hlen Hshape. pose proof Hlen as (H1 & H2 & H3).
  eexists. split; [apply to_coords_ok; assumption |].
  pose proof (length_traversed_axes T) as Hl.
  fold (traversed_axes T). unfold enumerate.
  rewrite length_map, !map_map.
  split.
  { rewrite <- Hl. generalize (traversed_axes T), 0.
    induction l as [| a l IH]; intros n; simpl; [reflexivity |].
    now rewrite IH. }
  split; [apply enumerate_from_snd |].
  split.
  - change (fun x => attrs_units (coord_at T shape x))
      with (fun x : nat * string => Some (nth (fst x) (units T) "")).
    rewrite <- (map_map (fun p : nat * string => nth (fst p) (units T) "") Some).
    f_equal. apply (enumerate_lookup "" (units T) (traversed_axes T)). lia.
  - transitivity
      (map (fun p : nat * string => nth (fst p) shape 0)
         (enumerate_from 0 (traversed_axes T))).
    + apply map_ext. intros p. unfold coord_at, stt_coord. cbn [values].
      now rewrite length_map, length_seq.
    + rewrite enumerate_from_lookup_prefix by (simpl; lia).
      now rewrite Hl.
Qed.

(** A column-major transform over x, y on the shape (2, 3). *)
Lemma to_coords_labels_witness :
  exists cs,
    to_coords
      (mkSTTransform (Some OrderF) ["x"; "y"] ["nm"; "um"] [0%Q; 10%Q]
         [1%Q; 2%Q]) [2; 3] = Ok cs /\
    length cs = 2 /\
    map dim cs = ["y"; "x"] /\
    map attrs_units cs = [Some "nm"; Some "um"] /\
    map (fun c => length (values c)) cs = [2; 3].
Proof.
  apply (to_coords_labels
           (mkSTTransform (Some OrderF) ["x"; "y"] ["nm"; "um"] [0%Q; 10%Q]
              [1%Q; 2%Q]) [2; 3]).
  - repeat split.
  - simpl. lia.
Defined.

(** X9. [to_coords] reads one shape entry per axis and no more: entries
    of the shape past the number of axes do not change the result. *)
Theorem to_coords_ignores_extra_shape
  (T : STTransform) (shape extra : list nat) :
  length (axes T) <= length shape ->
  to_coords T (shape ++ extra) = to_coords T shape.
Proof.
  intros H. unfold to_coords. fold (traversed_axes T).
  apply comprehension_ext. intros [idx k] Hin.
  apply enumerate_from_index in Hin.
  rewrite length_traversed_axes in Hin.
  unfold getitem at 1 5.
  rewrite nth_error_app1 by lia. reflexivity.
Qed.

(** One axis on the shape (3,) followed by two further entries. *)
Lemma to_coords_ignores_extra_shape_witness :
  to_coords (mkSTTransform (Some OrderC) ["x"] ["nm"] [0%Q] [1%Q])
    ([3] ++ [7; 9]) =
  to_coords (mkSTTransform (Some OrderC) ["x"] ["nm"] [0%Q] [1%Q]) [3].
Proof.
  apply (to_coords_ignores_extra_shape
           (mkSTTransform (Some OrderC) ["x"] ["nm"] [0%Q] [1%Q]) [3] [7; 9]).
  simpl. lia.
Defined.

(** * Further properties of cosem.py *)

(** ** Automatic path names *)

Lemma s_idx_decode (idx : nat) :
  exists digits,
    s_idx idx = String "s"%char digits /\
    option_map Nat.of_uint (NilZero.uint_of_string digits) = Some idx.
Proof.
  exists (NilZero.string_of_uint (Nat.to_uint idx)).
  split; [reflexivity |].
  destruct (Nat.to_uint idx) as [| d | d | d | d | d | d | d | d | d | d] eqn:E;
    try (rewrite NilZero.usu by discriminate; simpl;
         rewrite <- E; now rewrite DecimalNat.Unsigned.of_to).
  pose proof (DecimalNat.Unsigned.of_to idx) as H. rewrite E in H.
  simpl in H. subst idx. reflexivity.
Qed.

Lemma s_idx_inj (i j : nat) : s_idx i = s_idx j -> i = j.
Proof.
  intros H.
  destruct (s_idx_decode i) as (di & Ei & Hi).
  destruct (s_idx_decode j) as (dj & Ej & Hj).
  rewrite H, Ej in Ei. injection Ei as <-. congruence.
Qed.

Lemma NoDup_map_s_idx (l : list nat) : NoDup l -> NoDup (map s_idx l).
Proof.
  induction 1 as [| x l Hx _ IH]; simpl; constructor; [| exact IH].
  intros Hin. apply in_map_iff in Hin. destruct Hin as (y & Hy & Hin).
  apply s_idx_inj in Hy. now subst y.
Qed.

(** X11. The automatic paths of [normalize_paths]: as many as there are
    arrays, pairwise different, and the one at position [i] is the letter
    s followed by the decimal numeral of [i]. *)
Theorem normalize_paths_auto {A : Type} (arrays : list A) :
  length (normalize_paths arrays Auto) = length arrays /\
  NoDup (normalize_paths arrays Auto) /\
  forall i,
    i < length arrays ->
    exists digits,
      nth_error (normalize_paths arrays Auto) i = Some (String "s"%char digits) /\
      option_map Nat.of_uint (NilZero.uint_of_string digits) = Some i.
Proof.
  unfold normalize_paths. split; [now rewrite length_map, length_seq |].
  split; [apply NoDup_map_s_idx, seq_NoDup |].
  intros i Hi.
  destruct (s_idx_decode i) as (digits & E & Hd).
  exists digits. split; [| exact Hd].
  rewrite <- E. apply map_nth_error.
  rewrite nth_error_nth' with (d := 0) by now rewrite length_seq.
  now rewrite seq_nth.
Qed.

(** The twelfth of twelve arrays is named s11. *)
Lemma normalize_paths_auto_witness :
  exists digits,
    nth_error (normalize_paths (repeat tt 12) Auto) 11 =
      Some (String "s"%char digits) /\
    option_map Nat.of_uint (NilZero.uint_of_string digits) = Some 11.
Proof.
  apply (proj2 (proj2 (normalize_paths_auto (repeat tt 12))) 11).
  simpl. lia.
Defined.

(** ** Dicts and keywords *)

Lemma pyobj_eqb_eq (a b : pyobj) : pyobj_eqb a b = true <-> a = b.
Proof.
  destruct a as [s | t], b as [s' | t']; simpl.
  - rewrite String.eqb_eq. split; congruence.
  - split; discriminate.
  - split; discriminate.
  - destruct (list_eq_dec Nat.eq_dec t t'); split; congruence.
Qed.

Lemma dict_set_fresh {V : Type} (d : list (pyobj * V)) (key : pyobj)
  (value : V) :
  ~ In key (dict_keys d) -> dict_set d key value = d ++ [(key, value)].
Proof.
  unfold dict_keys. induction d as [| [k v] d IH]; intros H; simpl in *;
    [reflexivity |].
  destruct (pyobj_eqb k key) eqn:E.
  - apply pyobj_eqb_eq in E. tauto.
  - rewrite IH by tauto. reflexivity.
Qed.

Lemma dict_set_same {V : Type} (d : list (pyobj * V)) (key : pyobj)
  (old value : V) :
  ~ In key (dict_keys d) ->
  dict_set (d ++ [(key, old)]) key value = d ++ [(key, value)].
Proof.
  unfold dict_keys. induction d as [| [k v] d IH]; intros H; simpl in *.
  - assert (E : pyobj_eqb key key = true) by now apply pyobj_eqb_eq.
    now rewrite E.
  - destruct (pyobj_eqb k key) eqn:E.
    + apply pyobj_eqb_eq in E. tauto.
    + rewrite IH by tauto. reflexivity.
Qed.

(** A dict comprehension over items with pairwise different keys keeps
    every pair, in the order of the items. *)
Lemma dict_comprehension_fresh {A V : Type} (f : A -> result (pyobj * V))
  (k : A -> pyobj) (v : A -> V) (items : list A) :
  (forall x, In x items -> f x = Ok (k x, v x)) ->
  forall d,
    NoDup (dict_keys d ++ map k items) ->
    dict_comprehension f items d =
      Ok (d ++ map (fun x => (k x, v x)) items).
Proof.
  induction items as [| x items IH]; intros Hf d Hnd; simpl.
  - now rewrite app_nil_r.
  - rewrite (Hf x) by now left. simpl.
    simpl in Hnd. pose proof (NoDup_remove_2 _ _ _ Hnd) as Hx.
    rewrite dict_set_fresh by (intros Hin; apply Hx, in_or_app; now left).
    rewrite IH.
    + now rewrite <- app_assoc.
    + intros y Hy. apply Hf. now right.
    + unfold dict_keys in *. rewrite map_app, <- app_assoc. exact Hnd.
Qed.

(** A dict comprehension does not return once the expression of an item
    raises. *)
Lemma dict_comprehension_raises {A V : Type} (f : A -> result (pyobj * V))
  (items : list A) :
  Exists (fun x => is_ok (f x) = false) items ->
  forall d, is_ok (dict_comprehension f items d) = false.
Proof.
  induction 1 as [x items Hx | x items _ IH]; intros d; simpl.
  - destruct (f x); [discriminate | reflexivity].
  - destruct (f x); simpl; [apply IH | reflexivity].
Qed.

Lemma existsb_keyword (k : string) (kw : kwargs) :
  existsb (fun kv => String.eqb (fst kv) k) kw = true <-> has_keyword k kw.
Proof.
  unfold has_keyword. rewrite existsb_exists, in_map_iff.
  split; intros (kv & H1 & H2); exists kv.
  - apply String.eqb_eq in H2. tauto.
  - rewrite String.eqb_eq. tauto.
Qed.

Lemma keywords_fresh (k : string) (v : pyobj) (kw : kwargs) :
  ~ has_keyword k kw -> keywords k v kw = Ok ((k, v) :: kw).
Proof.
  intros H. unfold keywords.
  destruct (existsb _ kw) eqn:E; [| reflexivity].
  apply existsb_keyword in E. contradiction.
Qed.

Lemma keywords_twice (k : string) (v : pyobj) (kw : kwargs) :
  has_keyword k kw -> keywords k v kw = Raise TypeError.
Proof.
  intros H. unfold keywords.
  apply existsb_keyword in H. now rewrite H.
Qed.

Lemma from_xarray_inferable (a : DataArray) :
  inferable_array a -> from_xarray a false = Ok (inferred_transform a).
Proof.
  intros H. unfold from_xarray. simpl. now apply from_coords_inferable.
Qed.

Lemma from_xarray_not_inferable (a : DataArray) :
  ~ inferable_array a -> is_ok (from_xarray a false) = false.
Proof.
  intros H. unfold from_xarray. simpl.
  destruct (Forall_Exists_dec inferable inferable_dec (coords a))
    as [Hinf | Hex]; [contradiction |].
  destruct (from_coords_not_inferable (coords a) OrderC Hex) as [e ->].
  reflexivity.
Qed.

Lemma inferable_array_dec (a : DataArray) :
  {inferable_array a} + {~ inferable_array a}.
Proof.
  unfold inferable_array.
  destruct (Forall_Exists_dec inferable inferable_dec (coords a)) as [H | H];
    [now left | right].
  intros HF. apply Exists_Forall_neg in H; [contradiction |].
  intros c. destruct (inferable_dec c); tauto.
Qed.

(** The member built for an accepted array. *)
Lemma CosemMultiscaleArray_from_xarray_chunks (a : DataArray)
  (cnks : list nat) (kw : kwargs) :
  inferable_array a ->
  ~ has_keyword "attributes" kw ->
  CosemMultiscaleArray_from_xarray a (("chunks", PyTuple cnks) :: kw) =
    Ok (member_spec kw a cnks).
Proof.
  intros Ha Hk. unfold CosemMultiscaleArray_from_xarray.
  rewrite (from_xarray_inferable a Ha). simpl.
  destruct (existsb _ kw) eqn:E; [| reflexivity].
  apply existsb_keyword in E. contradiction.
Qed.

Lemma validate_members_PyStr {V : Type} (members : list (pyobj * V)) :
  Forall (fun key => exists s, key = PyStr s) (dict_keys members) ->
  validate_members members = Ok members.
Proof.
  intros H. unfold validate_members.
  assert (E : forallb
                (fun kv : pyobj * V =>
                   match fst kv with PyStr _ => true | _ => false end)
                members = true).
  { apply forallb_forall. intros [k v] Hin.
    unfold dict_keys in H. rewrite Forall_forall in H.
    destruct (H k) as [s0 ->]; [| reflexivity].
    apply in_map_iff. now exists (k, v). }
  now rewrite E.
Qed.

(** ** [zip] of three sequences *)

Lemma zip3_arrays {A B C : Type} (a : list A) :
  forall (b : list B) (c : list C),
    length b = length a ->
    map (fun x => (fst (fst x), snd (fst x))) (zip3 a b c) =
      firstn (length c) (combine a b).
Proof.
  induction a as [| x a IH]; intros [| y b] [| z c] H; simpl in *;
    try reflexivity; try discriminate.
  f_equal. apply IH. lia.
Qed.

Lemma zip3_keys {A B C : Type} (a : list A) :
  forall (b : list B) (c : list C),
    length b = length a ->
    map snd (zip3 a b c) = firstn (length a) c.
Proof.
  induction a as [| x a IH]; intros [| y b] [| z c] H; simpl in *;
    try reflexivity; try discriminate.
  f_equal. apply IH. lia.
Qed.

Lemma zip3_In {A B C : Type} (a : list A) :
  forall (b : list B) (c : list C) x,
    In x (zip3 a b c) -> In (fst (fst x)) a.
Proof.
  induction a as [| x0 a IH]; intros [| y b] [| z c] x H; simpl in *;
    try contradiction.
  destruct H as [<- | H]; [now left | right]. eapply IH. exact H.
Qed.

Lemma NoDup_firstn {A : Type} (n : nat) (l : list A) :
  NoDup l -> NoDup (firstn n l).
Proof.
  intros H. rewrite <- (firstn_skipn n l) in H.
  eapply NoDup_app_remove_r. exact H.
Qed.

Lemma NoDup_map_PyStr (l : list string) : NoDup l -> NoDup (map PyStr l).
Proof.
  induction 1 as [| x l Hx _ IH]; simpl; constructor; [| exact IH].
  intros Hin. apply in_map_iff in Hin. destruct Hin as (y & [= ->] & Hy).
  contradiction.
Qed.

Lemma normalize_chunks_length (arrays : list DataArray)
  (chunks : policy (list nat)) (_chunks : list (list nat)) :
  normalize_chunks arrays chunks = Ok _chunks ->
  length _chunks = length arrays.
Proof.
  unfold normalize_chunks. destruct chunks as [| l].
  - intros [= <-]. now rewrite length_map.
  - destruct (Nat.eqb_spec (length l) (length arrays)); [| discriminate].
    now intros [= <-].
Qed.

(** What [CosemMultiscaleGroupV2.from_xarrays] returns on accepted arrays
    and pairwise different paths. *)
Lemma CosemMultiscaleGroupV2_from_xarrays_ok
  (arrays : list DataArray) (chunks : policy (list nat))
  (paths : policy string) (name : option string) (kw : kwargs)
  (_chunks : list (list nat)) :
  Forall inferable_array arrays ->
  ~ has_keyword "chunks" kw ->
  ~ has_keyword "attributes" kw ->
  normalize_chunks arrays chunks = Ok _chunks ->
  NoDup (normalize_paths arrays paths) ->
  CosemMultiscaleGroupV2_from_xarrays arrays chunks paths name kw =
    Ok (mkCosemMultiscaleGroupV2
          (mkCosemGroupMetadataV2
             [mkMultiscaleMetaV2 name (normalize_paths arrays paths)])
          (map (fun x =>
                  (PyStr (snd x),
                   member_spec kw (fst (fst x)) (snd (fst x))))
             (zip3 arrays _chunks (normalize_paths arrays paths)))).
Proof.
  intros Harr Hc Ha Hn Hnd.
  pose proof (normalize_chunks_length _ _ _ Hn) as Hlen.
  unfold CosemMultiscaleGroupV2_from_xarrays. rewrite Hn. simpl.
  rewrite (dict_comprehension_fresh _ (fun x => PyStr (snd x))
             (fun x => member_spec kw (fst (fst x)) (snd (fst x)))).
  - cbn [bind app]. rewrite validate_members_PyStr; [reflexivity |].
    unfold dict_keys. rewrite map_map. apply Forall_map, Forall_forall.
    intros x _. now eexists.
  - intros [[arr cnks] key] Hin. apply zip3_In in Hin. simpl in Hin.
    rewrite Forall_forall in Harr.
    rewrite keywords_fresh by exact Hc. simpl.
    rewrite CosemMultiscaleArray_from_xarray_chunks by auto.
    reflexivity.
  - simpl. rewrite <- (map_map snd PyStr), zip3_keys by exact Hlen.
    apply NoDup_map_PyStr, NoDup_firstn, Hnd.
Qed.

Lemma zip3_first {A B C : Type} (a : list A) :
  forall (b : list B) (c : list C),
    length b = length a -> length c = length a ->
    map (fun x => fst (fst x)) (zip3 a b c) = a.
Proof.
  induction a as [| x a IH]; intros [| y b] [| z c] Hb Hc; simpl in *;
    try reflexivity; try discriminate.
  f_equal. apply IH; lia.
Qed.

Lemma zip3_second {A B C : Type} (a : list A) :
  forall (b : list B) (c : list C),
    length b = length a -> length c = length a ->
    map (fun x => snd (fst x)) (zip3 a b c) = b.
Proof.
  induction a as [| x a IH]; intros [| y b] [| z c] Hb Hc; simpl in *;
    try reflexivity; try discriminate.
  f_equal. apply IH; lia.
Qed.

Lemma zip3_length {A B C : Type} (a : list A) :
  forall (b : list B) (c : list C),
    length b = length a ->
    length (zip3 a b c) = Nat.min (length a) (length c).
Proof.
  induction a as [| x a IH]; intros [| y b] [| z c] Hb; simpl in *;
    try reflexivity; try discriminate.
  f_equal. apply IH; lia.
Qed.

Lemma zip3_Exists {A B C : Type} (P : A -> Prop) (a : list A) :
  forall (b : list B) (c : list C),
    length b = length a -> length c = length a ->
    Exists P a -> Exists (fun x => P (fst (fst x))) (zip3 a b c).
Proof.
  induction a as [| x a IH]; intros [| y b] [| z c] Hb Hc H; simpl in *;
    try discriminate; inversion H; subst.
  - now left.
  - right. apply IH; auto.
Qed.

Lemma Forall2_map_both {A B C : Type} (R : B -> C -> Prop) (f : A -> B)
  (g : A -> C) (l : list A) :
  (forall a, In a l -> R (f a) (g a)) -> Forall2 R (map f l) (map g l).
Proof.
  induction l as [| a l IH]; intros H; simpl; constructor.
  - apply H. now left.
  - apply IH. intros; apply H; now right.
Qed.

(** ** The v2 group builder *)

(** X12. Member-key equality on the v2 path.  When every array is
    accepted by inference, [chunks] and [attributes] are not among the
    extra keywords, the chunk policy resolves, and the resolved paths are
    pairwise different and as many as the arrays,
    [CosemMultiscaleGroupV2.from_xarrays] returns a group whose member
    keys are the paths in order, whose [i]-th member carries the [i]-th
    resolved chunk shape, the transform inferred from the [i]-th array and
    that array's shape and dtype, and whose attributes list the same
    paths. *)
Theorem CosemMultiscaleGroupV2_members
  (arrays : list DataArray) (chunks : policy (list nat))
  (paths : policy string) (name : option string) (kw : kwargs)
  (_chunks : list (list nat)) :
  Forall inferable_array arrays ->
  ~ has_keyword "chunks" kw ->
  ~ has_keyword "attributes" kw ->
  normalize_chunks arrays chunks = Ok _chunks ->
  NoDup (normalize_paths arrays paths) ->
  length (normalize_paths arrays paths) = length arrays ->
  exists g,
    CosemMultiscaleGroupV2_from_xarrays arrays chunks paths name kw = Ok g /\
    dict_keys (g2_members g) = map PyStr (normalize_paths arrays paths) /\
    map spec_chunks (dict_values (g2_members g)) =
      map (fun c => Some (PyTuple c)) _chunks /\
    Forall2
      (fun spec a =>
         from_xarray a false = Ok (attrs_transform (attributes spec)) /\
         spec_shape spec = shape a /\ spec_dtype spec = dtype a)
      (dict_values (g2_members g)) arrays /\
    v2_multiscales (g2_attributes g) =
      [mkMultiscaleMetaV2 name (normalize_paths arrays paths)].
Proof.
  intros Harr Hc Ha Hn Hnd Hlen.
  pose proof (normalize_chunks_length _ _ _ Hn) as Hcl.
  eexists. split;
    [apply (CosemMultiscaleGroupV2_from_xarrays_ok _ _ _ _ _ _chunks);
     assumption |].
  cbn [g2_members g2_attributes v2_multiscales].
  unfold dict_keys, dict_values. rewrite !map_map. cbn [fst snd].
  split.
  { rewrite <- (map_map snd PyStr), zip3_keys by exact Hcl.
    now rewrite <- Hlen, firstn_all. }
  split.
  { change (fun x : DataArray * list nat * string =>
              spec_chunks (member_spec kw (fst (fst x)) (snd (fst x))))
      with (fun x : DataArray * list nat * string =>
              Some (PyTuple (snd (fst x)))).
    rewrite <- (map_map (fun x : DataArray * list nat * string => snd (fst x))
                  (fun c => Some (PyTuple c))).
    now rewrite zip3_second. }
  split; [| reflexivity].
  pose proof (zip3_first arrays _chunks (normalize_paths arrays paths)
                Hcl Hlen) as E.
  assert (HF :
    Forall2
      (fun spec a =>
         from_xarray a false = Ok (attrs_transform (attributes spec)) /\
         spec_shape spec = shape a /\ spec_dtype spec = dtype a)
      (map (fun x : DataArray * list nat * string =>
              member_spec kw (fst (fst x)) (snd (fst x)))
         (zip3 arrays _chunks (normalize_paths arrays paths)))
      (map (fun x : DataArray * list nat * string => fst (fst x))
         (zip3 arrays _chunks (normalize_paths arrays paths)))).
  { apply Forall2_map_both. intros x Hin. apply zip3_In in Hin.
    rewrite Forall_forall in Harr.
    cbn [member_spec attributes attrs_transform spec_shape spec_dtype].
    split; [apply from_xarray_inferable; auto | split; reflexivity]. }
  rewrite E in HF. exact HF.
Qed.

(** Two arrays, automatic chunks and automatic paths. *)
Lemma CosemMultiscaleGroupV2_members_witness :
  exists g,
    CosemMultiscaleGroupV2_from_xarrays
      [mkDataArray [mkCoordinate "x" (Some "nm") [0%Q; 1%Q; 2%Q; 3%Q]] [4]
         "uint8" None;
       mkDataArray [mkCoordinate "x" (Some "nm") [(1 # 2)%Q; (5 # 2)%Q]] [2]
         "uint8" (Some [1])]
      Auto Auto (Some "raw") [] = Ok g /\
    dict_keys (g2_members g) = map PyStr ["s0"; "s1"] /\
    map spec_chunks (dict_values (g2_members g)) =
      map (fun c => Some (PyTuple c)) [[4]; [1]] /\
    Forall2
      (fun spec a =>
         from_xarray a false = Ok (attrs_transform (attributes spec)) /\
         spec_shape spec = shape a /\ spec_dtype spec = dtype a)
      (dict_values (g2_members g))
      [mkDataArray [mkCoordinate "x" (Some "nm") [0%Q; 1%Q; 2%Q; 3%Q]] [4]
         "uint8" None;
       mkDataArray [mkCoordinate "x" (Some "nm") [(1 # 2)%Q; (5 # 2)%Q]] [2]
         "uint8" (Some [1])] /\
    v2_multiscales (g2_attributes g) =
      [mkMultiscaleMetaV2 (Some "raw") ["s0"; "s1"]].
Proof.
  apply (CosemMultiscaleGroupV2_members
           [mkDataArray [mkCoordinate "x" (Some "nm") [0%Q; 1%Q; 2%Q; 3%Q]]
              [4] "uint8" None;
            mkDataArray [mkCoordinate "x" (Some "nm") [(1 # 2)%Q; (5 # 2)%Q]]
              [2] "uint8" (Some [1])]
           Auto Auto (Some "raw") [] [[4]; [1]]).
  - repeat constructor.
  - intros [].
  - intros [].
  - reflexivity.
  - repeat constructor; simpl; intuition discriminate.
  - reflexivity.
Defined.

(** X13. [zip] stops at the shorter of the arrays and the explicit
    paths.  With accepted arrays, no [chunks] or [attributes] keyword, a
    chunk policy that resolves and pairwise different explicit paths,
    [CosemMultiscaleGroupV2.from_xarrays] returns a group with as many
    members as the shorter of the two, keyed by the first paths, while its
    attributes list every path given: paths past the number of arrays are
    listed without a member, and arrays past the number of paths get no
    member. *)
Theorem CosemMultiscaleGroupV2_zip_truncates
  (arrays : list DataArray) (chunks : policy (list nat))
  (paths : list string) (name : option string) (kw : kwargs)
  (_chunks : list (list nat)) :
  Forall inferable_array arrays ->
  ~ has_keyword "chunks" kw ->
  ~ has_keyword "attributes" kw ->
  normalize_chunks arrays chunks = Ok _chunks ->
  NoDup paths ->
  exists g,
    CosemMultiscaleGroupV2_from_xarrays arrays chunks (Explicit paths) name kw
      = Ok g /\
    length (g2_members g) = Nat.min (length arrays) (length paths) /\
    dict_keys (g2_members g) = map PyStr (firstn (length arrays) paths) /\
    v2_multiscales (g2_attributes g) = [mkMultiscaleMetaV2 name paths].
Proof.
  intros Harr Hc Ha Hn Hnd.
  pose proof (normalize_chunks_length _ _ _ Hn) as Hcl.
  eexists. split;
    [apply (CosemMultiscaleGroupV2_from_xarrays_ok _ _ (Explicit paths) _ _
              _chunks); assumption |].
  cbn [g2_members g2_attributes v2_multiscales normalize_paths].
  split; [now rewrite length_map, zip3_length |].
  split; [| reflexivity].
  unfold dict_keys. rewrite map_map. cbn [fst].
  now rewrite <- (map_map snd PyStr), zip3_keys.
Qed.

(** One array against the paths a, b. *)
Lemma CosemMultiscaleGroupV2_zip_truncates_witness :
  exists g,
    CosemMultiscaleGroupV2_from_xarrays
      [mkDataArray [mkCoordinate "x" (Some "nm") [0%Q; 1%Q]] [2] "uint8" None]
      Auto (Explicit ["a"; "b"]) None [] = Ok g /\
    length (g2_members g) = Nat.min 1 2 /\
    dict_keys (g2_members g) = map PyStr (firstn 1 ["a"; "b"]) /\
    v2_multiscales (g2_attributes g) = [mkMultiscaleMetaV2 None ["a"; "b"]].
Proof.
  apply (CosemMultiscaleGroupV2_zip_truncates
           [mkDataArray [mkCoordinate "x" (Some "nm") [0%Q; 1%Q]] [2] "uint8"
              None]
           Auto ["a"; "b"] None [] [[2]]).
  - repeat constructor.
  - intros [].
  - intros [].
  - reflexivity.
  - repeat constructor; simpl; intuition discriminate.
Defined.

(** X14. A path given twice.  For two accepted arrays under the same
    explicit path, [CosemMultiscaleGroupV2.from_xarrays] returns a group
    with a single member under that path, built from the second array and
    the second chunk shape; the first array leaves no trace in the
    members. *)
Theorem CosemMultiscaleGroupV2_repeated_path
  (a1 a2 : DataArray) (chunks : policy (list nat)) (p : string)
  (name : option string) (kw : kwargs) (c1 c2 : list nat) :
  inferable_array a1 ->
  inferable_array a2 ->
  ~ has_keyword "chunks" kw ->
  ~ has_keyword "attributes" kw ->
  normalize_chunks [a1; a2] chunks = Ok [c1; c2] ->
  exists g,
    CosemMultiscaleGroupV2_from_xarrays [a1; a2] chunks (Explicit [p; p])
      name kw = Ok g /\
    g2_members g = [(PyStr p, member_spec kw a2 c2)].
Proof.
  intros H1 H2 Hc Ha Hn.
  unfold CosemMultiscaleGroupV2_from_xarrays. rewrite Hn. simpl.
  rewrite !keywords_fresh by exact Hc. simpl.
  rewrite !CosemMultiscaleArray_from_xarray_chunks by assumption. simpl.
  rewrite String.eqb_refl. eexists. split; reflexivity.
Qed.

(** Two arrays of different shapes, both under the path s0. *)
Lemma CosemMultiscaleGroupV2_repeated_path_witness :
  exists g,
    CosemMultiscaleGroupV2_from_xarrays
      [mkDataArray [mkCoordinate "x" None [0%Q; 1%Q; 2%Q]] [3] "uint8" None;
       mkDataArray [mkCoordinate "x" None [0%Q; 2%Q]] [2] "uint8" None]
      Auto (Explicit ["s0"; "s0"]) None [] = Ok g /\
    g2_members g =
      [(PyStr "s0",
        member_spec []
          (mkDataArray [mkCoordinate "x" None [0%Q; 2%Q]] [2] "uint8" None)
          [2])].
Proof.
  apply (CosemMultiscaleGroupV2_repeated_path
           (mkDataArray [mkCoordinate "x" None [0%Q; 1%Q; 2%Q]] [3] "uint8"
              None)
           (mkDataArray [mkCoordinate "x" None [0%Q; 2%Q]] [2] "uint8" None)
           Auto "s0" None [] [3] [2]).
  - repeat constructor.
  - repeat constructor.
  - intros [].
  - intros [].
  - reflexivity.
Defined.

(** X15. [attributes] given twice.  [CosemMultiscaleArray.from_xarray]
    passes [attributes=] itself next to its extra keyword arguments, so
    [attributes] among them is a [TypeError] on every array inference
    accepts; and [CosemMultiscaleGroupV2.from_xarrays], which hands its
    extra keyword arguments on to that method, raises the same
    [TypeError] on its first array when that array is accepted, there is a
    path for it and the chunk policy resolves. *)
Theorem attributes_keyword_given_twice :
  (forall a kw,
     inferable_array a ->
     has_keyword "attributes" kw ->
     CosemMultiscaleArray_from_xarray a kw = Raise TypeError) /\
  (forall a arrays chunks paths name kw _chunks,
     inferable_array a ->
     normalize_paths (a :: arrays) paths <> [] ->
     normalize_chunks (a :: arrays) chunks = Ok _chunks ->
     ~ has_keyword "chunks" kw ->
     has_keyword "attributes" kw ->
     CosemMultiscaleGroupV2_from_xarrays (a :: arrays) chunks paths name kw =
       Raise TypeError).
Proof.
  assert (Hattrs :
    forall a kw,
      inferable_array a ->
      has_keyword "attributes" kw ->
      CosemMultiscaleArray_from_xarray a kw = Raise TypeError).
  { intros a kw Ha Hk. unfold CosemMultiscaleArray_from_xarray.
    rewrite (from_xarray_inferable a Ha). simpl.
    apply existsb_keyword in Hk. now rewrite Hk. }
  split; [exact Hattrs |].
  intros a arrays chunks paths name kw _chunks Ha Hp Hn Hc Hk.
  pose proof (normalize_chunks_length _ _ _ Hn) as Hl.
  unfold CosemMultiscaleGroupV2_from_xarrays. rewrite Hn. cbn [bind].
  destruct _chunks as [| c _chunks]; [discriminate |].
  destruct (normalize_paths (a :: arrays) paths) as [| p ps];
    [contradiction |].
  simpl. rewrite keywords_fresh by exact Hc. simpl.
  rewrite Hattrs; [reflexivity | exact Ha |].
  unfold has_keyword in *. simpl. now right.
Qed.

(** One array, with [attributes] among the keywords. *)
Lemma attributes_keyword_given_twice_witness :
  CosemMultiscaleArray_from_xarray
    (mkDataArray [mkCoordinate "x" None [0%Q; 1%Q]] [2] "uint8" None)
    [("attributes", PyStr "none")] = Raise TypeError /\
  CosemMultiscaleGroupV2_from_xarrays
    [mkDataArray [mkCoordinate "x" None [0%Q; 1%Q]] [2] "uint8" None]
    Auto Auto None [("attributes", PyStr "none")] = Raise TypeError.
Proof.
  destruct attributes_keyword_given_twice as [Harray Hgroup].
  split.
  - apply Harray.
    + repeat constructor.
    + now left.
  - apply (Hgroup
             (mkDataArray [mkCoordinate "x" None [0%Q; 1%Q]] [2] "uint8" None)
             [] Auto Auto None [("attributes", PyStr "none")] [[2]]).
    + repeat constructor.
    + discriminate.
    + reflexivity.
    + intros [H | []]. discriminate H.
    + now left.
Defined.

Lemma comprehension_raises {A B : Type} (f : A -> result B) (l : list A) :
  Exists (fun x => is_ok (f x) = false) l ->
  is_ok (comprehension f l) = false.
Proof.
  induction 1 as [x l Hx | x l _ IH]; simpl.
  - destruct (f x); [discriminate | reflexivity].
  - destruct (f x); simpl; [| reflexivity].
    destruct (comprehension f l); [discriminate | reflexivity].
Qed.

(** X16. An array inference does not accept stops the v2 group builder.
    With the automatic paths, [CosemMultiscaleGroupV2.from_xarrays]
    returns no group as soon as one of the arrays has a coordinate with
    fewer than two samples or without a strictly positive spacing,
    whatever the other arguments are. *)
Theorem CosemMultiscaleGroupV2_all_or_nothing
  (arrays : list DataArray) (chunks : policy (list nat))
  (name : option string) (kw : kwargs) :
  Exists (fun a => ~ inferable_array a) arrays ->
  is_ok (CosemMultiscaleGroupV2_from_xarrays arrays chunks Auto name kw) =
    false.
Proof.
  intros Hex. unfold CosemMultiscaleGroupV2_from_xarrays.
  destruct (normalize_chunks arrays chunks) as [_chunks |] eqn:Hn;
    [| reflexivity].
  pose proof (normalize_chunks_length _ _ _ Hn) as Hl. simpl.
  match goal with
  | |- is_ok (bind ?d _) = false =>
      assert (E : is_ok d = false); [| destruct d; [discriminate | reflexivity]]
  end.
  apply dict_comprehension_raises.
  eapply Exists_impl;
    [| apply (zip3_Exists (fun a => ~ inferable_array a) arrays _chunks
                (map s_idx (seq 0 (length arrays))) Hl);
       [now rewrite length_map, length_seq | exact Hex]].
  intros [[arr cnks] key] Hbad. simpl in Hbad.
  destruct (keywords "chunks" (PyTuple cnks) kw) as [kw' |]; simpl;
    [| reflexivity].
  unfold CosemMultiscaleArray_from_xarray.
  pose proof (from_xarray_not_inferable arr Hbad) as Hno.
  destruct (from_xarray arr false); [discriminate | reflexivity].
Qed.

(** A good array followed by one whose coordinate has a single sample. *)
Lemma CosemMultiscaleGroupV2_all_or_nothing_witness :
  is_ok
    (CosemMultiscaleGroupV2_from_xarrays
       [mkDataArray [mkCoordinate "x" None [0%Q; 1%Q]] [2] "uint8" None;
        mkDataArray [mkCoordinate "x" None [0%Q]] [1] "uint8" None]
       Auto Auto None []) = false.
Proof.
  apply (CosemMultiscaleGroupV2_all_or_nothing
           [mkDataArray [mkCoordinate "x" None [0%Q; 1%Q]] [2] "uint8" None;
            mkDataArray [mkCoordinate "x" None [0%Q]] [1] "uint8" None]
           Auto None []).
  right. left. intros H. inversion H as [| ? ? [Hl _] _]. simpl in Hl. lia.
Defined.

(** ** The v1 metadata builder *)

(** X17. [CosemGroupMetadataV1.from_xarrays] returns exactly when
    inference accepts every array of the mapping.  It then returns one
    multiscale entry with the name given, whose datasets are, in the
    order of the mapping, the key of each array as path with the
    row-major transform [from_xarray] infers from that array. *)
Theorem CosemGroupMetadataV1_from_xarrays_datasets
  (arrays : list (string * DataArray)) (name : option string) :
  (Forall (fun kv => inferable_array (snd kv)) arrays ->
   exists datasets,
     CosemGroupMetadataV1_from_xarrays arrays name =
       Ok (mkCosemGroupMetadataV1 [mkMultiscaleMetaV1 name datasets]) /\
     map path datasets = dict_keys arrays /\
     Forall2
       (fun ds kv =>
          from_xarray (snd kv) false = Ok (transform ds) /\
          order (transform ds) = Some OrderC)
       datasets arrays) /\
  (is_ok (CosemGroupMetadataV1_from_xarrays arrays name) = true ->
   Forall (fun kv => inferable_array (snd kv)) arrays).
Proof.
  split.
  - intros Hall.
    exists (map (fun kv => mkScaleMetaV1 (fst kv)
                             (inferred_transform (snd kv))) arrays).
    split; [| split].
    + unfold CosemGroupMetadataV1_from_xarrays.
      rewrite (comprehension_map _
                 (fun kv => mkScaleMetaV1 (fst kv)
                              (inferred_transform (snd kv)))).
      * reflexivity.
      * intros [k a] Hin. rewrite Forall_forall in Hall.
        rewrite (from_xarray_inferable a (Hall _ Hin)). reflexivity.
    + unfold dict_keys. now rewrite map_map.
    + rewrite <- (map_id arrays) at 2.
      apply Forall2_map_both. intros [k a] Hin.
      rewrite Forall_forall in Hall. simpl.
      split; [apply from_xarray_inferable, (Hall _ Hin) | reflexivity].
  - intros Hok.
    destruct (Forall_Exists_dec (fun kv => inferable_array (snd kv))
                (fun kv => inferable_array_dec (snd kv)) arrays)
      as [H | H]; [exact H | exfalso].
    unfold CosemGroupMetadataV1_from_xarrays in Hok.
    match type of Hok with
    | is_ok (bind ?c _) = true =>
        assert (E : is_ok c = false); [| destruct c; discriminate]
    end.
    apply comprehension_raises.
    eapply Exists_impl; [| exact H].
    intros [k a] Hbad. simpl in Hbad.
    pose proof (from_xarray_not_inferable a Hbad) as Hno.
    destruct (from_xarray a false); [discriminate | reflexivity].
Qed.

(** The mapping s0, s1 of two arrays with one coordinate each. *)
Lemma CosemGroupMetadataV1_from_xarrays_datasets_witness :
  exists datasets,
    CosemGroupMetadataV1_from_xarrays
      [("s0", mkDataArray [mkCoordinate "x" (Some "nm") [0%Q; 1%Q; 2%Q]] [3]
                "uint8" None);
       ("s1", mkDataArray [mkCoordinate "x" (Some "nm") [(1 # 2)%Q; (5 # 2)%Q]]
                [2] "uint8" None)]
      (Some "raw") =
      Ok (mkCosemGroupMetadataV1 [mkMultiscaleMetaV1 (Some "raw") datasets]) /\
    map path datasets = ["s0"; "s1"] /\
    Forall2
      (fun ds kv =>
         from_xarray (snd kv) false = Ok (transform ds) /\
         order (transform ds) = Some OrderC)
      datasets
      [("s0", mkDataArray [mkCoordinate "x" (Some "nm") [0%Q; 1%Q; 2%Q]] [3]
                "uint8" None);
       ("s1", mkDataArray [mkCoordinate "x" (Some "nm") [(1 # 2)%Q; (5 # 2)%Q]]
                [2] "uint8" None)].
Proof.
  apply (proj1 (CosemGroupMetadataV1_from_xarrays_datasets
                  [("s0", mkDataArray
                            [mkCoordinate "x" (Some "nm") [0%Q; 1%Q; 2%Q]]
                            [3] "uint8" None);
                   ("s1", mkDataArray
                            [mkCoordinate "x" (Some "nm")
                               [(1 # 2)%Q; (5 # 2)%Q]]
                            [2] "uint8" None)]
                  (Some "raw"))).
  repeat constructor.
Defined.
